(** * docxServer / python / SectLabel: operator scripts, verified

    A shallow embedding of the scripts of the [SectLabel] directory

    - [model.py]                 ([resolve_path], [run_once], [main]),
    - [probe_diag.py]            ([safe_import], the smoke tests, [main]),
    - [patch_sectlabel_lite.py]  ([main]),
    - [smoke.py] and [verify_env.py],

    together with the part of the Python runtime they rest on: text as
    sequences of code points, the UTF-8 codec with its error handlers,
    text-mode newline translation, the exception hierarchy, and a file
    system with a process environment.  Effects are threaded through a
    small state-and-exception monad over a [world]. *)

From Stdlib Require Import ZArith Lia ZifyBool String Ascii Strings.Byte.
From stdpp Require Import gmap list.

Open Scope Z_scope.

(** ** Python runtime *)

Module Py.

(** A [str] is a sequence of Unicode code points. *)
Abbreviation pystr := (list Z).

(** *** Exceptions *)

(** The built-in classes the scripts raise or catch, and classes derived
    from them by third-party code. *)
Inductive exc_class : Type :=
  | BaseException
  | SystemExit
  | KeyboardInterrupt
  | Exception
  | OSError
  | FileNotFoundError
  | PermissionError
  | IsADirectoryError
  | ImportError
  | ModuleNotFoundError
  | RuntimeError
  | AttributeError
  | ValueError
  | UnicodeError
  | UnicodeDecodeError
  | UnicodeEncodeError
  | Derived (name : pystr) (parent : exc_class).

#[export] Instance exc_class_eq_dec : EqDecision exc_class.
Proof. solve_decision. Defined.

(** Method resolution order (single inheritance): the class, then its
    bases up to [BaseException]. *)
Fixpoint mro (c : exc_class) : list exc_class :=
  match c with
  | BaseException => [BaseException]
  | SystemExit => [SystemExit; BaseException]
  | KeyboardInterrupt => [KeyboardInterrupt; BaseException]
  | Exception => [Exception; BaseException]
  | OSError => [OSError; Exception; BaseException]
  | FileNotFoundError => [FileNotFoundError; OSError; Exception; BaseException]
  | PermissionError => [PermissionError; OSError; Exception; BaseException]
  | IsADirectoryError => [IsADirectoryError; OSError; Exception; BaseException]
  | ImportError => [ImportError; Exception; BaseException]
  | ModuleNotFoundError =>
      [ModuleNotFoundError; ImportError; Exception; BaseException]
  | RuntimeError => [RuntimeError; Exception; BaseException]
  | AttributeError => [AttributeError; Exception; BaseException]
  | ValueError => [ValueError; Exception; BaseException]
  | UnicodeError => [UnicodeError; ValueError; Exception; BaseException]
  | UnicodeDecodeError =>
      [UnicodeDecodeError; UnicodeError; ValueError; Exception; BaseException]
  | UnicodeEncodeError =>
      [UnicodeEncodeError; UnicodeError; ValueError; Exception; BaseException]
  | Derived _ parent => c :: mro parent
  end.

Definition issubclass (c d : exc_class) : bool := bool_decide (d ∈ mro c).

(** A raised exception: its class and [str(e)]. *)
Record exn : Type := MkExn { exn_class : exc_class; exn_msg : pystr }.

Definition isinstance (e : exn) (d : exc_class) : bool :=
  issubclass (exn_class e) d.

Inductive result (A : Type) : Type :=
  | Ok (a : A)
  | Raise (e : exn).
Arguments Ok {A} a.
Arguments Raise {A} e.

Definition result_map {A B} (f : A → B) (r : result A) : result B :=
  match r with Ok a => Ok (f a) | Raise e => Raise e end.

(** *** str methods *)

Section Sequences.
Context {A : Type} `{EqDecision A}.

(** [s.startswith(p)] *)
Fixpoint startswith (p s : list A) : bool :=
  match p, s with
  | [], _ => true
  | _ :: _, [] => false
  | a :: p', b :: s' => bool_decide (a = b) && startswith p' s'
  end.

(** [old in s] *)
Fixpoint contains (old s : list A) : bool :=
  startswith old s ||
  match s with
  | [] => false
  | _ :: s' => contains old s'
  end.

(** [s.replace(old, new, 1)]: the leftmost occurrence only. *)
Fixpoint replace1 (old new s : list A) : list A :=
  if startswith old s then new ++ drop (length old) s
  else match s with
       | [] => []
       | c :: s' => c :: replace1 old new s'
       end.

Variable sp : A → bool.

(** [s.lstrip()], [s.rstrip()], [s.strip()] for a whitespace class [sp]. *)
Fixpoint lstrip_by (s : list A) : list A :=
  match s with
  | [] => []
  | c :: s' => if sp c then lstrip_by s' else s
  end.

Definition rstrip_by (s : list A) : list A := reverse (lstrip_by (reverse s)).

Definition strip_by (s : list A) : list A := rstrip_by (lstrip_by s).

(** [s.split()]: split at runs of whitespace; [cur] is the word being
    read, most recent character first. *)
Fixpoint split_by (cur : list A) (s : list A) : list (list A) :=
  match s with
  | [] => match cur with [] => [] | _ => [reverse cur] end
  | c :: s' =>
      if sp c then
        match cur with
        | [] => split_by [] s'
        | _ => reverse cur :: split_by [] s'
        end
      else split_by (c :: cur) s'
  end.
End Sequences.

(** [c.isspace()]: the code points Python classifies as whitespace. *)
Definition isspace (c : Z) : bool :=
  ((0x09 <=? c) && (c <=? 0x0D)) || ((0x1C <=? c) && (c <=? 0x20))
  || (c =? 0x85) || (c =? 0xA0) || (c =? 0x1680)
  || ((0x2000 <=? c) && (c <=? 0x200A))
  || (c =? 0x2028) || (c =? 0x2029) || (c =? 0x202F) || (c =? 0x205F)
  || (c =? 0x3000).

Definition strip : pystr → pystr := strip_by isspace.
Definition split : pystr → list pystr := split_by isspace [].

(** [s.lower()] restricted to ASCII letters; it agrees with Python on
    every ASCII string and is used only to instantiate the Unicode case
    table in closed examples. *)
Definition ascii_lower (s : pystr) : pystr :=
  (λ c, if (0x41 <=? c) && (c <=? 0x5A) then c + 32 else c) <$> s.

(** *** The UTF-8 codec *)

Definition byte_val (b : byte) : Z := Z.of_N (Byte.to_N b).

Definition mk_byte (z : Z) : byte :=
  match Byte.of_N (Z.to_N z) with Some b => b | None => x00 end.

(** The [errors=] argument of [decode]. *)
Inductive error_handler : Type := strict | ignore | replace.

(** What the decoder does with one undecodable range of input, [k] being
    the decoding of what follows the range: [strict] raises, [ignore]
    continues with nothing, [replace] continues with U+FFFD. *)
Definition decode_error (errors : error_handler) (k : result pystr)
  : result pystr :=
  match errors with
  | strict => Raise (MkExn UnicodeDecodeError [])
  | ignore => k
  | replace => result_map (cons 0xFFFD) k
  end.

Definition emit (c : Z) (k : result pystr) : result pystr :=
  result_map (cons c) k.

Definition is_continuation (b : Z) : bool := (0x80 <=? b) && (b <? 0xC0).

(** [bytes.decode("utf-8", errors)].  A lead byte is followed by the
    continuation bytes its range asks for; overlong forms, surrogates and
    values above U+10FFFF are refused at the second byte.  An error range
    is the lead byte with the continuation bytes accepted so far (the
    offending byte is decoded again), or all that is left when the input
    ends inside a sequence. *)
Fixpoint utf8_decode (errors : error_handler) (bs : list byte)
  : result pystr :=
  match bs with
  | [] => Ok []
  | x0 :: t0 =>
    let b0 := byte_val x0 in
    if b0 <? 0x80 then emit b0 (utf8_decode errors t0)
    else if b0 <? 0xC2 then decode_error errors (utf8_decode errors t0)
    else if b0 <? 0xE0 then
      match t0 with
      | [] => decode_error errors (Ok [])
      | x1 :: t1 =>
        let b1 := byte_val x1 in
        if negb (is_continuation b1)
        then decode_error errors (utf8_decode errors t0)
        else emit ((b0 - 0xC0) * 64 + (b1 - 0x80)) (utf8_decode errors t1)
      end
    else if b0 <? 0xF0 then
      match t0 with
      | [] => decode_error errors (Ok [])
      | x1 :: t1 =>
        let b1 := byte_val x1 in
        if negb (is_continuation b1)
           || (if b1 <? 0xA0 then b0 =? 0xE0 else b0 =? 0xED)
        then decode_error errors (utf8_decode errors t0)
        else
          match t1 with
          | [] => decode_error errors (Ok [])
          | x2 :: t2 =>
            let b2 := byte_val x2 in
            if negb (is_continuation b2)
            then decode_error errors (utf8_decode errors t1)
            else emit ((b0 - 0xE0) * 4096 + (b1 - 0x80) * 64 + (b2 - 0x80))
                      (utf8_decode errors t2)
          end
      end
    else if b0 <? 0xF5 then
      match t0 with
      | [] => decode_error errors (Ok [])
      | x1 :: t1 =>
        let b1 := byte_val x1 in
        if negb (is_continuation b1)
           || (if b1 <? 0x90 then b0 =? 0xF0 else b0 =? 0xF4)
        then decode_error errors (utf8_decode errors t0)
        else
          match t1 with
          | [] => decode_error errors (Ok [])
          | x2 :: t2 =>
            let b2 := byte_val x2 in
            if negb (is_continuation b2)
            then decode_error errors (utf8_decode errors t1)
            else
              match t2 with
              | [] => decode_error errors (Ok [])
              | x3 :: t3 =>
                let b3 := byte_val x3 in
                if negb (is_continuation b3)
                then decode_error errors (utf8_decode errors t2)
                else emit ((b0 - 0xF0) * 262144 + (b1 - 0x80) * 4096
                           + (b2 - 0x80) * 64 + (b3 - 0x80))
                          (utf8_decode errors t3)
              end
          end
      end
    else decode_error errors (utf8_decode errors t0)
  end.

(** One code point of [str.encode("utf-8")] (strict): surrogates cannot
    be encoded. *)
Definition utf8_encode_char (c : Z) : result (list byte) :=
  if c <? 0x80 then Ok [mk_byte c]
  else if c <? 0x800 then
    Ok [mk_byte (0xC0 + c / 64); mk_byte (0x80 + c mod 64)]
  else if (0xD800 <=? c) && (c <? 0xE000) then
    Raise (MkExn UnicodeEncodeError [])
  else if c <? 0x10000 then
    Ok [mk_byte (0xE0 + c / 4096); mk_byte (0x80 + (c / 64) mod 64);
        mk_byte (0x80 + c mod 64)]
  else
    Ok [mk_byte (0xF0 + c / 262144); mk_byte (0x80 + (c / 4096) mod 64);
        mk_byte (0x80 + (c / 64) mod 64); mk_byte (0x80 + c mod 64)].

Fixpoint utf8_encode (s : pystr) : result (list byte) :=
  match s with
  | [] => Ok []
  | c :: s' =>
    match utf8_encode_char c with
    | Raise e => Raise e
    | Ok bs => result_map (app bs) (utf8_encode s')
    end
  end.

(** A literal of the source, written in UTF-8 as the source files are. *)
Definition lit (s : string) : pystr :=
  match utf8_decode strict (list_byte_of_string s) with
  | Ok t => t
  | Raise _ => []
  end.

(** *** Text-mode newline translation *)

Definition LF : Z := 10.
Definition CR : Z := 13.

(** Reading with [newline=None]: CR LF and a lone CR become LF. *)
Fixpoint universal_newlines (s : pystr) : pystr :=
  match s with
  | [] => []
  | c :: t =>
    if c =? CR then
      LF :: match t with
            | [] => []
            | c' :: t' =>
              if c' =? LF then universal_newlines t' else universal_newlines t
            end
    else c :: universal_newlines t
  end.

(** Writing with [newline=None]: LF becomes [os.linesep]. *)
Definition write_newlines (linesep : pystr) (s : pystr) : pystr :=
  flat_map (λ c, if c =? LF then linesep else [c]) s.

Inductive platform : Type := Posix | Windows.

Definition os_linesep (plat : platform) : pystr :=
  match plat with Posix => [LF] | Windows => [CR; LF] end.

(** [os.sep] *)
Definition os_sep (plat : platform) : pystr :=
  match plat with Posix => lit "/" | Windows => lit "\" end.

(** *** The world: files, process environment, observable events *)

Inductive node : Type :=
  | File (data : list byte)
  | Dir.

(** What a run leaves behind, oldest first: file writes and printed
    lines. *)
Inductive event : Type :=
  | Wrote (path : pystr) (data : list byte)
  | Printed (line : pystr).

Record world : Type := World {
  files : gmap pystr node;
  environ : gmap pystr pystr;
  events : list event
}.

(** Computations that read and change the world and may raise. *)
Definition M (A : Type) : Type := world → result A * world.

#[export] Instance M_ret : MRet M := λ A a w, (Ok a, w).

#[export] Instance M_bind : MBind M := λ A B f c w,
  match c w with
  | (Ok a, w') => f a w'
  | (Raise e, w') => (Raise e, w')
  end.

Definition raise {A} (e : exn) : M A := λ w, (Raise e, w).

Definition get_world : M world := λ w, (Ok w, w).

Definition log_event (e : event) : M unit := λ w,
  (Ok (), World (files w) (environ w) (events w ++ [e])).

Definition set_file (p : pystr) (n : node) : M unit := λ w,
  (Ok (), World (<[p := n]> (files w)) (environ w) (events w)).

(** [print(s)] *)
Definition print (s : pystr) : M unit := log_event (Printed s).

(** [os.environ.get(k)], [os.getenv(k)] *)
Definition getenv (k : pystr) : M (option pystr) :=
  w ← get_world; mret (environ w !! k).

(** [Path.exists()] *)
Definition path_exists (p : pystr) : M bool :=
  w ← get_world;
  mret (match files w !! p with Some _ => true | None => false end).

(** [p] names a regular file of [w]. *)
Definition is_file (w : world) (p : pystr) : bool :=
  match files w !! p with Some (File _) => true | _ => false end.

(** [os.path.isfile(p)]: false for a missing path, never raises. *)
Definition isfile (p : pystr) : M bool :=
  w ← get_world; mret (is_file w p).

(** Opening a directory as a file. *)
Definition open_dir_error (plat : platform) (p : pystr) : exn :=
  match plat with
  | Posix => MkExn IsADirectoryError p
  | Windows => MkExn PermissionError p
  end.

(** [Path.read_text(encoding="utf-8", errors=errors)]: the whole file,
    decoded, newlines translated. *)
Definition read_text (plat : platform) (p : pystr) (errors : error_handler)
  : M pystr :=
  w ← get_world;
  match files w !! p with
  | None => raise (MkExn FileNotFoundError p)
  | Some Dir => raise (open_dir_error plat p)
  | Some (File data) =>
    match utf8_decode errors data with
    | Ok t => mret (universal_newlines t)
    | Raise e => raise e
    end
  end.

(** [Path.write_text(s, encoding="utf-8")]: opening truncates the file,
    the text is encoded (strict) after its newlines are translated.  The
    parent directory is taken to exist. *)
Definition write_text (plat : platform) (p : pystr) (s : pystr) : M unit :=
  w ← get_world;
  match files w !! p with
  | Some Dir => raise (open_dir_error plat p)
  | _ =>
    match utf8_encode (write_newlines (os_linesep plat) s) with
    | Ok data => set_file p (File data);; log_event (Wrote p data)
    | Raise e => set_file p (File []);; raise e
    end
  end.

(** *** Values that may be [None] *)

(** Truth value of a [str] or [None]. *)
Definition truthy (v : option pystr) : bool :=
  match v with
  | Some (_ :: _) => true
  | _ => false
  end.

(** [a or b] *)
Definition py_or (a b : option pystr) : option pystr :=
  if truthy a then a else b.

(** [str(v)], as [format] and f-strings render it. *)
Definition str_of (v : option pystr) : pystr :=
  match v with
  | Some s => s
  | None => lit "None"
  end.

End Py.

Import Py.

(** ** model.py *)

Module Model.

Definition DEFAULT_OPTIONS : pystr :=
  lit "E:\models\elmo\elmo_2x4096_512_2048cnn_2xhighway_options.json".
Definition DEFAULT_WEIGHTS : pystr :=
  lit "E:\models\elmo\elmo_2x4096_512_2048cnn_2xhighway_weights.hdf5".

Section Resolve.
(** [str.lower]: the Unicode case table is the runtime's. *)
Variable unicode_lower : pystr → pystr.

Definition not_found_message (path : option pystr) (env_key : pystr)
  : pystr :=
  lit "文件不存在：" ++ str_of path ++ lit "（可用 --"
  ++ unicode_lower (drop 5 env_key) ++ lit " 或设置环境变量 "
  ++ env_key ++ lit "）".

Definition resolve_path (cli_value : option pystr) (env_key : pystr)
    (default_value : option pystr) : M pystr :=
  env ← getenv env_key;
  let path := py_or (py_or cli_value env) default_value in
  match path with
  | Some (c :: p) =>
    ok ← isfile (c :: p);
    if negb ok
    then raise (MkExn FileNotFoundError (not_found_message path env_key))
    else mret (c :: p)
  | _ => raise (MkExn FileNotFoundError (not_found_message path env_key))
  end.
End Resolve.

(** *** The resolver as the specification words it *)

(** The candidate: the first of explicit value and environment value
    that is non-empty, else the default. *)
Definition candidate (w : world) (explicit : option pystr) (env_key : pystr)
    (default_value : option pystr) : option pystr :=
  match explicit with
  | Some (_ :: _) => explicit
  | _ =>
    match environ w !! env_key with
    | Some (_ :: _) => environ w !! env_key
    | _ => default_value
    end
  end.

(** A non-empty path of an existing regular file. *)
Definition usable (w : world) (v : option pystr) : bool :=
  truthy v && is_file w (str_of v).

(** Precedence with fall-through: the explicit value when usable; with
    no explicit value, the environment value when usable; otherwise the
    default when usable. *)
Definition claimed_resolve (w : world) (explicit : option pystr)
    (env_key : pystr) (default_value : option pystr) : option pystr :=
  if usable w explicit then explicit
  else if negb (truthy explicit) && usable w (environ w !! env_key)
       then environ w !! env_key
  else if usable w default_value then default_value
  else None.

(** Precedence without fall-through: a source is consulted only when
    every source before it is absent or empty. *)
Inductive selects (w : world) (explicit : option pystr) (env_key : pystr)
    (default_value : option pystr) (p : pystr) : Prop :=
  | selects_explicit :
      explicit = Some p → p ≠ [] → selects w explicit env_key default_value p
  | selects_env :
      truthy explicit = false →
      environ w !! env_key = Some p → p ≠ [] →
      selects w explicit env_key default_value p
  | selects_default :
      truthy explicit = false →
      truthy (environ w !! env_key) = false →
      default_value = Some p → p ≠ [] →
      selects w explicit env_key default_value p.

(** The first statement of [run_once]: [tokens = text.strip().split()].
    What follows it calls the embedding model and prints floats. *)
Definition run_once_tokens (text : pystr) : list pystr := split (strip text).

End Model.

(** ** probe_diag.py *)

Module ProbeDiag.

(** A spaCy pipeline: text to (token, part-of-speech) pairs. *)
Definition pipeline : Type := pystr → result (list (pystr * pystr)).

(** An imported module, as far as the probe looks at it: [__version__]
    (rendered) and [load], either of which may be missing. *)
Record module_ : Type := Module_ {
  mod_version : option pystr;
  mod_load : option (pystr → result pipeline)
}.

(** An imported name, as far as the probe looks at it. *)
Record object_ : Type := Object_ { obj_callable : bool }.

(** The interpreter the probe runs in.  An import or a library call is
    taken by its outcome alone, a value or a failure: what the imported
    code itself prints or writes is outside this model, and nothing is
    stated about it. *)
Record interpreter : Type := Interpreter {
  sys_executable : pystr;
  sys_version : pystr;
  platform_platform : pystr;
  (** [__import__(name)] *)
  import_module : pystr → result module_;
  (** [from m import n] *)
  import_from : pystr → pystr → result object_;
  (** [str] of a list of pairs of [str] *)
  str_pairs : list (pystr * pystr) → pystr
}.

Definition lift {A} (r : result A) : M A := λ w, (r, w).

(** [try: body  except cls as e: handler(e)] *)
Definition try_except {A} (body : M A) (cls : exc_class)
    (handler : exn → M A) : M A := λ w,
  match body w with
  | (Ok a, w') => (Ok a, w')
  | (Raise e, w') =>
    if isinstance e cls then handler e w' else (Raise e, w')
  end.

Section Probe.
Variable py : interpreter.

Definition safe_import (name : pystr)
  : M (option module_ * option pystr) :=
  try_except
    (m ← lift (import_module py name); mret (Some m, None))
    Exception
    (λ e, mret (None, Some (exn_msg e))).

(** ["{:<45} {}".format(k, v)] *)
Definition format_kv (k v : pystr) : pystr :=
  k ++ replicate (45 - length k)%nat 0x20 ++ lit " " ++ v.

Definition print_kv (k v : pystr) : M unit := print (format_kv k v).

(** [spacy.load("en_core_web_sm")("This is a test sentence.")] *)
Definition spaCy_doc (m : module_) : result (list (pystr * pystr)) :=
  match mod_load m with
  | None =>
    Raise (MkExn AttributeError (lit "module has no attribute 'load'"))
  | Some load =>
    match load (lit "en_core_web_sm") with
    | Raise e => Raise e
    | Ok nlp => nlp (lit "This is a test sentence.")
    end
  end.

Definition spaCy_smoke (spacy : option module_) : M unit :=
  try_except
    (match spacy with
     | None => raise (MkExn RuntimeError (lit "spacy not installed"))
     | Some m =>
       doc ← lift (spaCy_doc m);
       print_kv (lit "SPACY SMOKE") (lit "OK -> " ++ str_pairs py doc)
     end)
    Exception
    (λ e, print_kv (lit "SPACY SMOKE") (lit "FAILED -> " ++ exn_msg e)).

Definition str_bool (b : bool) : pystr :=
  if b then lit "True" else lit "False".

Definition tbx_smoke (tbx : option module_) : M unit :=
  try_except
    (match tbx with
     | None => raise (MkExn RuntimeError (lit "tensorboardX not installed"))
     | Some _ =>
       SummaryWriter ← lift (import_from py (lit "tensorboardX")
                                         (lit "SummaryWriter"));
       print_kv (lit "TENSORBOARDX SMOKE")
                (lit "OK; SummaryWriter available = "
                 ++ str_bool (obj_callable SummaryWriter))
     end)
    Exception
    (λ e, print_kv (lit "TENSORBOARDX SMOKE")
                   (lit "FAILED -> " ++ exn_msg e)).

(** ["=" * 60] *)
Definition rule : pystr := replicate 60 0x3D.

(** [getattr(mod, "__version__", "N/A") if mod else
     "NOT INSTALLED ({})".format(err)] *)
Definition status (imported : option module_) (err : option pystr)
  : pystr :=
  match imported with
  | Some m => default (lit "N/A") (mod_version m)
  | None => lit "NOT INSTALLED (" ++ str_of err ++ lit ")"
  end.

Definition main : M unit :=
  print rule;;
  print (lit "RUNTIME");;
  print rule;;
  print_kv (lit "python_executable") (sys_executable py);;
  print_kv (lit "python_version")
           ((λ c, if c =? LF then 0x20 else c) <$> sys_version py);;
  print_kv (lit "platform") (platform_platform py);;

  print ([LF] ++ rule);;
  print (lit "ENV VARS");;
  print rule;;
  lite ← getenv (lit "SCIWING_LITE");
  print_kv (lit "SCIWING_LITE") (str_of lite);;
  impl ← getenv (lit "PROTOCOL_BUFFERS_PYTHON_IMPLEMENTATION");
  print_kv (lit "PROTOCOL_BUFFERS_PYTHON_IMPLEMENTATION") (str_of impl);;

  print ([LF] ++ rule);;
  print (lit "PACKAGES");;
  print rule;;

  '(pb, pb_err) ← safe_import (lit "google.protobuf");
  '(spacy, spacy_err) ← safe_import (lit "spacy");
  '(torch, torch_err) ← safe_import (lit "torch");
  '(gensim, gensim_err) ← safe_import (lit "gensim");
  '(tbx, tbx_err) ← safe_import (lit "tensorboardX");
  '(lmdb, lmdb_err) ← safe_import (lit "lmdb");
  '(sciwing, sciwing_err) ← safe_import (lit "sciwing");

  print_kv (lit "protobuf") (status pb pb_err);;
  print_kv (lit "spacy") (status spacy spacy_err);;
  print_kv (lit "torch") (status torch torch_err);;
  print_kv (lit "gensim") (status gensim gensim_err);;
  print_kv (lit "tensorboardX") (status tbx tbx_err);;
  print_kv (lit "lmdb") (status lmdb lmdb_err);;
  print_kv (lit "sciwing") (status sciwing sciwing_err);;

  print ([LF] ++ rule);;
  print (lit "SMOKE TESTS");;
  print rule;;
  spaCy_smoke spacy;;
  tbx_smoke tbx;;

  print ([LF] ++ rule);;
  print (lit "DONE");;
  print rule.
End Probe.

End ProbeDiag.

(** ** patch_sectlabel_lite.py *)

Module PatchSectlabelLite.

(** A [pathlib.Path]: its parts; [str] joins them with [os.sep]. *)
Definition path : Type := list pystr.

Fixpoint path_str (plat : platform) (p : path) : pystr :=
  match p with
  | [] => lit "."
  | [a] => a
  | a :: p' => a ++ os_sep plat ++ path_str plat p'
  end.

(** [p / part] *)
Definition joinpath (p : path) (part : pystr) : path := p ++ [part].

(** [name.rfind(".")], counted from the end: the length of what follows
    the last dot. *)
Fixpoint after_last_dot (rev_name : pystr) : option nat :=
  match rev_name with
  | [] => None
  | c :: r =>
    if c =? 0x2E then Some 0%nat else S <$> after_last_dot r
  end.

(** [PurePath.suffix]: from the last dot of the name on, unless the dot
    is the first or the last character. *)
Definition suffix (name : pystr) : pystr :=
  match after_last_dot (reverse name) with
  | Some k =>
    let i := (length name - S k)%nat in
    if bool_decide (0 < i)%nat && bool_decide (i < length name - 1)%nat
    then drop i name else []
  | None => []
  end.

(** [p.with_suffix(suf)] for a path with a name. *)
Definition with_suffix (p : path) (suf : pystr) : path :=
  match reverse p with
  | [] => p
  | name :: parents =>
    reverse parents
    ++ [take (length name - length (suffix name)) name ++ suf]
  end.

Definition ROOT : path :=
  [lit "E:\programFile\AIProgram\docxServer\python\sciwing"].
Definition TARGET : path :=
  joinpath (joinpath (joinpath ROOT (lit "sciwing")) (lit "models"))
           (lit "sectlabel.py").
Definition BACKUP : path := with_suffix TARGET (lit ".py.bak_lite").

Definition sentinel : pystr :=
  lit "from sciwing.modules.embedders.bow_elmo_embedder import BowElmoEmbedder".

(** The text put in place of the sentinel. *)
Definition replacement : pystr :=
  lit "import os" ++ [LF]
  ++ lit "if str(os.getenv('SCIWING_LITE','')).lower() in ('1','true','yes','y'):"
  ++ [LF]
  ++ lit "    BowElmoEmbedder = None  # LITE 模式：不触发 allennlp 依赖" ++ [LF]
  ++ lit "else:" ++ [LF]
  ++ lit "    from sciwing.modules.embedders.bow_elmo_embedder import BowElmoEmbedder"
  ++ [LF].

Section Patch.
Variable plat : platform.

Definition msg_missing : pystr :=
  lit "找不到文件: " ++ path_str plat TARGET.

Definition msg_skipped : pystr :=
  lit "未发现需要替换的导入行，可能此前已补丁或源码版本不同。略过。".

Definition msg_patched : pystr :=
  lit "已打补丁并备份：" ++ [LF] ++ lit "  备份: " ++ path_str plat BACKUP
  ++ [LF] ++ lit "  目标: " ++ path_str plat TARGET.

Definition main : M unit :=
  found ← path_exists (path_str plat TARGET);
  if negb found
  then raise (MkExn SystemExit msg_missing)
  else
    src ← read_text plat (path_str plat TARGET) ignore;
    if negb (contains sentinel src)
    then print msg_skipped
    else
      let patched := replace1 sentinel replacement src in
      write_text plat (path_str plat BACKUP) src;;
      write_text plat (path_str plat TARGET) patched;;
      print msg_patched.
End Patch.

End PatchSectlabelLite.

(** ** Auxiliary notions used in the statements *)

(** One step of the decoder on a non-empty input: either a well-formed
    sequence [used] for the code point [c], decoded the same whatever
    follows it and encoded back to [used]; or an error range [used]. *)
Inductive decode_step (bs : list byte) : Prop :=
  | step_char (c : Z) (used rest : list byte) :
      bs = used ++ rest → used ≠ [] →
      utf8_encode_char c = Ok used →
      (∀ errors rest',
         utf8_decode errors (used ++ rest')
         = emit c (utf8_decode errors rest')) →
      decode_step bs
  | step_error (used rest : list byte) :
      bs = used ++ rest → used ≠ [] →
      (∀ errors,
         utf8_decode errors bs
         = decode_error errors (utf8_decode errors rest)) →
      decode_step bs.

(** The well-formed UTF-8 byte sequences, as the Unicode Standard lists
    them (table 3-7, by lead byte and range of the second byte): the
    length of the well-formed sequence [bs] starts with, when it starts
    with one. *)
Definition in_range (lo hi b : Z) : bool := (lo <=? b) && (b <=? hi).

Definition well_formed_at (bs : list byte) : option nat :=
  match bs with
  | [] => None
  | x0 :: t0 =>
    let b0 := byte_val x0 in
    if in_range 0x00 0x7F b0 then Some 1%nat
    else
      match t0 with
      | [] => None
      | x1 :: t1 =>
        let b1 := byte_val x1 in
        if in_range 0xC2 0xDF b0 && in_range 0x80 0xBF b1 then Some 2%nat
        else
          match t1 with
          | [] => None
          | x2 :: t2 =>
            let b2 := byte_val x2 in
            if ((b0 =? 0xE0) && in_range 0xA0 0xBF b1
                || in_range 0xE1 0xEC b0 && in_range 0x80 0xBF b1
                || (b0 =? 0xED) && in_range 0x80 0x9F b1
                || in_range 0xEE 0xEF b0 && in_range 0x80 0xBF b1)
               && in_range 0x80 0xBF b2
            then Some 3%nat
            else
              match t2 with
              | [] => None
              | x3 :: _ =>
                let b3 := byte_val x3 in
                if ((b0 =? 0xF0) && in_range 0x90 0xBF b1
                    || in_range 0xF1 0xF3 b0 && in_range 0x80 0xBF b1
                    || (b0 =? 0xF4) && in_range 0x80 0x8F b1)
                   && in_range 0x80 0xBF b2 && in_range 0x80 0xBF b3
                then Some 4%nat
                else None
              end
          end
      end
  end.

(** The well-formed sequences of [bs], scanning from the left: where a
    well-formed sequence starts it is kept whole and the scan goes on
    after it; where none starts, that one byte is left out. *)
Inductive well_formed_parts : list byte → list (list byte) → Prop :=
  | parts_nil : well_formed_parts [] []
  | parts_keep (bs : list byte) (n : nat) (parts : list (list byte)) :
      well_formed_at bs = Some n →
      well_formed_parts (drop n bs) parts →
      well_formed_parts bs (take n bs :: parts)
  | parts_skip (b : byte) (rest : list byte) (parts : list (list byte)) :
      well_formed_at (b :: rest) = None →
      well_formed_parts rest parts →
      well_formed_parts (b :: rest) parts.

(** One step of the decoder against the table: on a well-formed sequence
    it gives a code point, whatever follows; an error range holds no
    byte at which a well-formed sequence starts. *)
Inductive scan_step (bs : list byte) : Prop :=
  | scan_char (c : Z) (n : nat) :
      well_formed_at bs = Some n → (0 < n ≤ length bs)%nat →
      (∀ errors rest',
         utf8_decode errors (take n bs ++ rest')
         = emit c (utf8_decode errors rest')) →
      scan_step bs
  | scan_error (used rest : list byte) :
      bs = used ++ rest → used ≠ [] →
      (∀ errors,
         utf8_decode errors bs
         = decode_error errors (utf8_decode errors rest)) →
      (∀ parts, well_formed_parts rest parts → well_formed_parts bs parts) →
      scan_step bs.

(** A code point [str.encode] accepts. *)
Definition encodable (c : Z) : Prop := ∃ bs, utf8_encode_char c = Ok bs.

(** Number of positions at which [old] occurs in [s]. *)
Fixpoint occurrences {A} `{EqDecision A} (old s : list A) : nat :=
  ((if startswith old s then 1 else 0)
   + match s with [] => 0 | _ :: s' => occurrences old s' end)%nat.

(** A world with one usable file, the environment naming a missing one. *)
Definition resolver_world : world :=
  World {[ lit "/ok" := File [] ]}
        {[ lit "ELMO_OPTIONS" := lit "/missing";
           lit "ELMO_WEIGHTS" := lit "/ok" ]} [].

Definition empty_world : world := World ∅ ∅ [].

(** Lines joined as a file holds them, each ended by LF. *)
Definition join_lines (ls : list pystr) : pystr :=
  concat ((λ l, l ++ [LF]) <$> ls).

(** The import line on its own, as bytes. *)
Definition sentinel_line : list byte :=
  list_byte_of_string
    "from sciwing.modules.embedders.bow_elmo_embedder import BowElmoEmbedder"
  ++ [x0a].

(** A world after more events. *)
Definition add_events (w : world) (es : list event) : world :=
  World (files w) (environ w) (events w ++ es).

(** A failure that [except Exception] catches, if a failure at all. *)
Definition ordinary {A} (r : result A) : Prop :=
  ∀ e, r = Raise e → isinstance e Exception = true.

(** The fixed probe list: name imported, label reported. *)
Definition packages : list (pystr * pystr) :=
  [(lit "google.protobuf", lit "protobuf");
   (lit "spacy", lit "spacy");
   (lit "torch", lit "torch");
   (lit "gensim", lit "gensim");
   (lit "tensorboardX", lit "tensorboardX");
   (lit "lmdb", lit "lmdb");
   (lit "sciwing", lit "sciwing")].

(** The module an import gave, if it gave one. *)
Definition imported (r : result ProbeDiag.module_)
  : option ProbeDiag.module_ :=
  match r with Ok m => Some m | Raise _ => None end.

(** What a status line reports for the outcome of an import. *)
Definition status_of (r : result ProbeDiag.module_) : pystr :=
  match r with
  | Ok m => default (lit "N/A") (ProbeDiag.mod_version m)
  | Raise e => lit "NOT INSTALLED (" ++ exn_msg e ++ lit ")"
  end.


(** What is printed before the status lines. *)
Definition preamble (py : ProbeDiag.interpreter) (w : world) : list event :=
  [Printed ProbeDiag.rule; Printed (lit "RUNTIME"); Printed ProbeDiag.rule;
   Printed (ProbeDiag.format_kv (lit "python_executable")
              (ProbeDiag.sys_executable py));
   Printed (ProbeDiag.format_kv (lit "python_version")
              ((λ c, if c =? LF then 0x20 else c)
               <$> ProbeDiag.sys_version py));
   Printed (ProbeDiag.format_kv (lit "platform")
              (ProbeDiag.platform_platform py));
   Printed ([LF] ++ ProbeDiag.rule); Printed (lit "ENV VARS");
   Printed ProbeDiag.rule;
   Printed (ProbeDiag.format_kv (lit "SCIWING_LITE")
              (str_of (environ w !! lit "SCIWING_LITE")));
   Printed (ProbeDiag.format_kv (lit "PROTOCOL_BUFFERS_PYTHON_IMPLEMENTATION")
              (str_of (environ w
                       !! lit "PROTOCOL_BUFFERS_PYTHON_IMPLEMENTATION")));
   Printed ([LF] ++ ProbeDiag.rule); Printed (lit "PACKAGES");
   Printed ProbeDiag.rule].


(** An interpreter in which only [torch] can be imported. *)
Definition torch_only : ProbeDiag.interpreter :=
  ProbeDiag.Interpreter (lit "/usr/bin/python3") (lit "3.7.0") (lit "Linux")
    (λ name,
       if bool_decide (name = lit "torch")
       then Ok (ProbeDiag.Module_ (Some (lit "1.4.0")) None)
       else Raise (MkExn ModuleNotFoundError
                     (lit "No module named '" ++ name ++ lit "'")))
    (λ m n, Raise (MkExn ModuleNotFoundError
                     (lit "No module named '" ++ m ++ lit "'")))
    (λ _, []).

(** A world whose only file is the target, holding [data]. *)
Definition target_world (plat : platform) (data : list byte) : world :=
  World {[ PatchSectlabelLite.path_str plat PatchSectlabelLite.TARGET
           := File data ]} ∅ [].

(** ** model.py: the runner *)

Module ModelMain.

(** [IndexError], a [LookupError]. *)
Definition IndexError : exc_class :=
  Derived (lit "IndexError") (Derived (lit "LookupError") Exception).

Section Runner.
(** The numbers of a representation, and [round(x, 4)] on them. *)
Variable F : Type.
Variable round4 : F → F.
(** [str] of a list of [str], of a tuple of integers, of a list of
    numbers. *)
Variable str_tokens : list pystr → pystr.
Variable str_shape : nat * nat * nat → pystr.
Variable str_numbers : list F → pystr.
(** [str.lower] *)
Variable unicode_lower : pystr → pystr.

(** A three-dimensional array. *)
Record tensor : Type := Tensor {
  shape : nat * nat * nat;
  item : nat → nat → nat → F
}.

(** [t[i, j, :n].tolist()]: the indices are checked, the slice is cut
    to what there is. *)
Definition row_prefix (t : tensor) (i j n : nat) : result (list F) :=
  let '(d0, d1, d2) := shape t in
  if bool_decide (i < d0)%nat && bool_decide (j < d1)%nat
  then Ok (item t i j <$> seq 0 (n `min` d2))
  else Raise (MkExn IndexError (lit "index out of range")).

(** A constructed model, as [run_once] uses it: from a batch of token
    lists to [out["elmo_representations"][0]]. *)
Definition elmo : Type := list (list pystr) → result tensor.

(** The constructor [Elmo(options_file=..., weight_file=...,
    num_output_representations=1, dropout=0.0, do_layer_norm=False)],
    as a function of the two files. *)
Variable Elmo : pystr → pystr → result elmo.

Definition build_elmo (options_path weights_path : pystr) : result elmo :=
  Elmo options_path weights_path.

Definition run_once (model : elmo) (text : pystr) : M unit :=
  let tokens := Model.run_once_tokens text in
  elmo_repr ← ProbeDiag.lift (model [tokens]);
  print (lit "Tokens: " ++ str_tokens tokens);;
  print (lit "ELMo representation shape: " ++ str_shape (shape elmo_repr));;
  if bool_decide (2 ≤ (shape elmo_repr).1.2)%nat then
    v0 ← ProbeDiag.lift (row_prefix elmo_repr 0 0 5);
    v1 ← ProbeDiag.lift (row_prefix elmo_repr 0 1 5);
    print (lit "First token (5 dims): " ++ str_numbers (round4 <$> v0));;
    print (lit "Second token (5 dims): " ++ str_numbers (round4 <$> v1))
  else mret ().

(** [main], from the parsed arguments on. *)
Definition main (args_options args_weights : option pystr)
    (args_text : pystr) : M unit :=
  options_path ← Model.resolve_path unicode_lower args_options
                   (lit "ELMO_OPTIONS") (Some Model.DEFAULT_OPTIONS);
  weights_path ← Model.resolve_path unicode_lower args_weights
                   (lit "ELMO_WEIGHTS") (Some Model.DEFAULT_WEIGHTS);
  model ← ProbeDiag.lift (build_elmo options_path weights_path);
  run_once model args_text.
End Runner.

End ModelMain.

(** A model that gives every token a vector of [dim] zeros. *)
Definition zeros_model (dim : nat) : ModelMain.elmo Z :=
  λ batch, Ok (ModelMain.Tensor Z (length batch, length (mjoin batch), dim)
                 (λ _ _ _, 0)).

(** A code point that encodes, and whose encoding every handler decodes
    back to it, whatever follows. *)
Definition round_trips (c : Z) : Prop :=
  ∃ used,
    utf8_encode_char c = Ok used
    ∧ ∀ errors rest,
        utf8_decode errors (used ++ rest) = emit c (utf8_decode errors rest).

(** ** smoke.py *)

Module Smoke.

(** [e.__class__.__name__] *)
Definition class_name (c : exc_class) : pystr :=
  match c with
  | BaseException => lit "BaseException"
  | SystemExit => lit "SystemExit"
  | KeyboardInterrupt => lit "KeyboardInterrupt"
  | Exception => lit "Exception"
  | OSError => lit "OSError"
  | FileNotFoundError => lit "FileNotFoundError"
  | PermissionError => lit "PermissionError"
  | IsADirectoryError => lit "IsADirectoryError"
  | ImportError => lit "ImportError"
  | ModuleNotFoundError => lit "ModuleNotFoundError"
  | RuntimeError => lit "RuntimeError"
  | AttributeError => lit "AttributeError"
  | ValueError => lit "ValueError"
  | UnicodeError => lit "UnicodeError"
  | UnicodeDecodeError => lit "UnicodeDecodeError"
  | UnicodeEncodeError => lit "UnicodeEncodeError"
  | Derived name _ => name
  end.

(** [f"{s:12s}"] for width [n]: blanks added on the right, nothing cut. *)
Definition ljust (n : nat) (s : pystr) : pystr :=
  s ++ replicate (n - length s) 0x20.

(** [for x in xs: body(x)] *)
Fixpoint for_each {A} (body : A → M unit) (xs : list A) : M unit :=
  match xs with
  | [] => mret ()
  | x :: xs' => body x;; for_each body xs'
  end.

Definition mods : list pystr :=
  [lit "lmdb"; lit "spacy"; lit "gensim"; lit "torch"; lit "tensorboardX";
   lit "sciwing"].

Section Script.
Variable py : ProbeDiag.interpreter.

(** The body of the loop. *)
Definition try_import (m : pystr) : M unit :=
  ProbeDiag.try_except
    (imported_module ← ProbeDiag.lift (ProbeDiag.import_module py m);
     print (ljust 12 m ++ lit " OK  "
            ++ default (lit "-") (ProbeDiag.mod_version imported_module)))
    Exception
    (λ e, print (ljust 12 m ++ lit " FAIL " ++ class_name (exn_class e)
                 ++ lit ": " ++ exn_msg e)).

(** The script, top to bottom. *)
Definition script : M unit :=
  print (lit "py: " ++ ProbeDiag.sys_version py ++ lit " " ++ [LF]
         ++ lit "exe: " ++ ProbeDiag.sys_executable py);;
  for_each try_import mods.
End Script.

End Smoke.

(** The line [smoke.py] prints for a module, by the outcome of its
    import. *)
Definition smoke_line (py : ProbeDiag.interpreter) (m : pystr) : event :=
  Printed
    (Smoke.ljust 12 m
     ++ match ProbeDiag.import_module py m with
        | Ok imported_module =>
          lit " OK  "
          ++ default (lit "-") (ProbeDiag.mod_version imported_module)
        | Raise e =>
          lit " FAIL " ++ Smoke.class_name (exn_class e) ++ lit ": "
          ++ exn_msg e
        end).

(** An interpreter in which no module can be imported and the import of
    [name] is interrupted from the keyboard. *)
Definition interrupted_at (name : pystr) : ProbeDiag.interpreter :=
  ProbeDiag.Interpreter (lit "/usr/bin/python3") (lit "3.7.0") (lit "Linux")
    (λ n,
       if bool_decide (n = name)
       then Raise (MkExn KeyboardInterrupt [])
       else Raise (MkExn ModuleNotFoundError
                     (lit "No module named '" ++ n ++ lit "'")))
    (λ m n, Raise (MkExn ModuleNotFoundError
                     (lit "No module named '" ++ m ++ lit "'")))
    (λ _, []).

(** ** verify_env.py *)

Module VerifyEnv.

Definition env_keys : list pystr :=
  [lit "SCIWING_LITE"; lit "PROTOCOL_BUFFERS_PYTHON_IMPLEMENTATION";
   lit "HTTP_PROXY"; lit "HTTPS_PROXY"].

Definition names : list pystr :=
  [lit "lmdb"; lit "spacy"; lit "gensim"; lit "torch"; lit "tensorboardX";
   lit "sciwing"].

(** [f"FAIL ({e.__class__.__name__}: {e})"] *)
Definition fail_status (e : exn) : pystr :=
  lit "FAIL (" ++ Smoke.class_name (exn_class e) ++ lit ": " ++ exn_msg e
  ++ lit ")".

(** [xs[0]] *)
Definition first_item (xs : list pystr) : result pystr :=
  match xs with
  | x :: _ => Ok x
  | [] => Raise (MkExn ModelMain.IndexError (lit "list index out of range"))
  end.

Section VerifyEnv.
Variable py : ProbeDiag.interpreter.
(** [getattr(m, "__file__", None)] and [str] of [nlp.pipe_names]: what
    the interpreter's modules and pipelines hold. *)
Variable mod_file : ProbeDiag.module_ → option pystr.
Variable str_pipe_names : ProbeDiag.pipeline → pystr.

Definition safe_import (name : pystr)
  : M (option ProbeDiag.module_ * pystr) :=
  ProbeDiag.try_except
    (m ← ProbeDiag.lift (ProbeDiag.import_module py name);
     mret (Some m,
           lit "OK (" ++ default (lit "no __version__")
                           (ProbeDiag.mod_version m) ++ lit ")"))
    Exception
    (λ e, mret (None, fail_status e)).

(** The check made when [spacy] was imported. *)
Definition spacy_check (m : ProbeDiag.module_) : M unit :=
  ProbeDiag.try_except
    (load ← match ProbeDiag.mod_load m with
            | Some f => mret f
            | None =>
              raise (MkExn AttributeError
                       (lit "module has no attribute 'load'"))
            end;
     nlp ← ProbeDiag.lift (load (lit "en_core_web_sm"));
     doc ← ProbeDiag.lift (nlp (lit "This is a test sentence."));
     print (lit "spacy pipeline: " ++ str_pipe_names nlp);;
     print (lit "spacy smoke: " ++ ProbeDiag.str_pairs py doc))
    Exception
    (λ e, print (lit "spacy model load: " ++ fail_status e)).

(** The body of the loop over [names]. *)
Definition check_import (name : pystr) : M unit :=
  '(m, status) ← safe_import name;
  print (Smoke.ljust 20 name ++ lit " " ++ status);;
  (if bool_decide (name = lit "spacy")
   then match m with Some x => spacy_check x | None => mret () end
   else mret ());;
  (if bool_decide (name = lit "lmdb")
   then match m with
        | Some x => print (lit "lmdb path: " ++ str_of (mod_file x))
        | None => mret ()
        end
   else mret ()).

Definition main : M unit :=
  print ProbeDiag.rule;;
  print (lit "PYTHON");;
  print ProbeDiag.rule;;
  print (lit "exe: " ++ ProbeDiag.sys_executable py);;
  version ← ProbeDiag.lift (first_item (split (ProbeDiag.sys_version py)));
  print (lit "version: " ++ version);;
  print [];;

  print ProbeDiag.rule;;
  print (lit "ENV VARS (runtime)");;
  print ProbeDiag.rule;;
  Smoke.for_each
    (λ k, v ← getenv k; print (Smoke.ljust 40 k ++ lit " " ++ str_of v))
    env_keys;;
  print [];;

  print ProbeDiag.rule;;
  print (lit "IMPORTS");;
  print ProbeDiag.rule;;
  Smoke.for_each check_import names;;
  print [];;

  print ProbeDiag.rule;;
  print (lit "DONE");;
  print ProbeDiag.rule.
End VerifyEnv.

End VerifyEnv.

(** The failure outside [Exception] that stops the check of spaCy, when
    there is one: [spacy] is imported and loading the model, or running
    it on the test sentence, raises it. *)
Definition spacy_interrupt (py : ProbeDiag.interpreter) : option exn :=
  match ProbeDiag.import_module py (lit "spacy") with
  | Ok m =>
    match ProbeDiag.spaCy_doc m with
    | Raise e => if isinstance e Exception then None else Some e
    | Ok _ => None
    end
  | Raise _ => None
  end.

(** An interpreter with spaCy alone installed, where loading the model
    is interrupted. *)
Definition spacy_load_interrupted : ProbeDiag.interpreter :=
  ProbeDiag.Interpreter (lit "/usr/bin/python3") (lit "3.7.0") (lit "Linux")
    (λ name,
       if bool_decide (name = lit "spacy")
       then Ok (ProbeDiag.Module_ (Some (lit "2.3.0"))
                  (Some (λ _, Raise (MkExn KeyboardInterrupt []))))
       else Raise (MkExn ModuleNotFoundError
                     (lit "No module named '" ++ name ++ lit "'")))
    (λ m n, Raise (MkExn ModuleNotFoundError
                     (lit "No module named '" ++ m ++ lit "'")))
    (λ _, []).

(** The status line [verify_env.py] prints for a name, by the outcome of
    its import. *)
Definition verify_line (py : ProbeDiag.interpreter) (name : pystr) : event :=
  Printed
    (Smoke.ljust 20 name ++ lit " "
     ++ match ProbeDiag.import_module py name with
        | Ok m =>
          lit "OK (" ++ default (lit "no __version__")
                          (ProbeDiag.mod_version m) ++ lit ")"
        | Raise e => VerifyEnv.fail_status e
        end).

(** * Properties *)

(** ** Sequences: [in], [replace], [strip], [split] *)

Section SequenceFacts.
Context {A : Type} `{EqDecision A}.
Implicit Types s old new pre post cur : list A.

Lemma startswith_app old post : startswith old (old ++ post) = true.
Proof.
  induction old as [|a old IH]; [done|].
  cbn. rewrite IH. by rewrite bool_decide_eq_true_2.
Qed.

Lemma startswith_inv old s :
  startswith old s = true → s = old ++ drop (length old) s.
Proof.
  revert s. induction old as [|a old IH]; intros [|b s] Hs; try done.
  cbn in Hs. apply andb_prop in Hs as [Hab Hs].
  apply bool_decide_eq_true_1 in Hab as ->. cbn. f_equal. by apply IH.
Qed.

Lemma contains_unfold old s :
  contains old s
  = startswith old s
    || match s with [] => false | _ :: s' => contains old s' end.
Proof. by destruct s. Qed.

Lemma contains_app pre old post : contains old (pre ++ old ++ post) = true.
Proof.
  induction pre as [|c pre IH].
  - rewrite contains_unfold. cbn [app]. by rewrite startswith_app.
  - cbn. rewrite IH. apply orb_true_r.
Qed.

Lemma contains_inv old s :
  contains old s = true → ∃ pre post, s = pre ++ old ++ post.
Proof.
  induction s as [|c s IH]; cbn; intros Hs.
  - rewrite orb_false_r in Hs. exists [], (drop (length old) []).
    by apply startswith_inv.
  - apply orb_prop in Hs as [Hs|Hs].
    + exists [], (drop (length old) (c :: s)). by apply startswith_inv.
    + destruct (IH Hs) as (pre & post & ->). by exists (c :: pre), post.
Qed.

(** [replace1] rewrites the leftmost occurrence and nothing else. *)
Lemma replace1_spec old new s :
  contains old s = true →
  ∃ pre post,
    s = pre ++ old ++ post
    ∧ replace1 old new s = pre ++ new ++ post
    ∧ ∀ pre' post', s = pre' ++ old ++ post' → (length pre ≤ length pre')%nat.
Proof.
  induction s as [|c s IH]; intros Hs.
  - cbn in Hs. rewrite orb_false_r in Hs.
    exists [], (drop (length old) []). cbn [replace1]. rewrite Hs.
    split_and!; [by apply startswith_inv|done|cbn; lia].
  - cbn [replace1]. destruct (startswith old (c :: s)) eqn:Hp.
    + exists [], (drop (length old) (c :: s)).
      split_and!; [by apply startswith_inv|done|cbn; lia].
    + cbn in Hs. cbn in Hp. rewrite Hp in Hs. cbn in Hs.
      destruct (IH Hs) as (pre & post & Hs' & Hr & Hmin).
      exists (c :: pre), post. split_and!.
      * by rewrite Hs'.
      * by rewrite Hr.
      * intros [|c' pre'] post' E.
        -- cbn in E. change (startswith old (c :: s) = false) in Hp.
           rewrite E, startswith_app in Hp. done.
        -- cbn in E. injection E as -> E. cbn.
           specialize (Hmin _ _ E). lia.
Qed.

Lemma replace1_absent old new s :
  contains old s = false → replace1 old new s = s.
Proof.
  induction s as [|c s IH]; cbn; intros Hs.
  - rewrite orb_false_r in Hs. by rewrite Hs.
  - apply orb_false_elim in Hs as [Hp Hs]. rewrite Hp. f_equal. by apply IH.
Qed.

Variable sp : A → bool.

Lemma split_by_nonempty cur s : Forall (λ t, t ≠ []) (split_by sp cur s).
Proof.
  revert cur. induction s as [|c s IH]; intros cur; cbn.
  - destruct cur as [|a cur]; constructor; [|done].
    intros E%(f_equal length). rewrite length_reverse in E. done.
  - destruct (sp c); [|apply IH].
    destruct cur as [|a cur]; [apply IH|]. constructor; [|apply IH].
    intros E%(f_equal length). rewrite length_reverse in E. done.
Qed.

Lemma split_by_no_space cur s :
  Forall (λ c, sp c = false) cur →
  Forall (Forall (λ c, sp c = false)) (split_by sp cur s).
Proof.
  revert cur. induction s as [|c s IH]; intros cur Hcur; cbn.
  - destruct cur as [|a cur]; constructor; [|done].
    by apply Forall_reverse.
  - destruct (sp c) eqn:Hc.
    + destruct cur as [|a cur]; [by apply IH|].
      constructor; [by apply Forall_reverse|by apply IH].
    + apply IH. by constructor.
Qed.

(** The tokens, put end to end, are the text without its whitespace. *)
Lemma split_by_concat cur s :
  concat (split_by sp cur s) = reverse cur ++ filter (λ c, sp c = false) s.
Proof.
  revert cur. induction s as [|c s IH]; intros cur; cbn [split_by].
  - destruct cur; cbn; by rewrite ?app_nil_r.
  - rewrite filter_cons. destruct (sp c) eqn:Hc.
    + rewrite decide_False by done.
      destruct cur as [|a cur]; [apply IH|].
      cbn [concat]. by rewrite IH.
    + rewrite decide_True by done. rewrite IH. rewrite reverse_cons.
      by rewrite <- app_assoc.
Qed.

Lemma lstrip_by_all_space s : forallb sp s = true → lstrip_by sp s = [].
Proof.
  induction s as [|c s IH]; [done|]. cbn.
  intros [-> Hs]%andb_prop. by apply IH.
Qed.

Lemma lstrip_by_filter s :
  filter (λ c, sp c = false) (lstrip_by sp s) = filter (λ c, sp c = false) s.
Proof.
  induction s as [|c s IH]; [done|]. cbn [lstrip_by].
  destruct (sp c) eqn:Hc; [|done].
  rewrite filter_cons, decide_False by (rewrite Hc; done). done.
Qed.

Lemma strip_by_filter s :
  filter (λ c, sp c = false) (strip_by sp s) = filter (λ c, sp c = false) s.
Proof.
  unfold strip_by, rstrip_by.
  rewrite filter_reverse, lstrip_by_filter, <- filter_reverse, reverse_involutive.
  apply lstrip_by_filter.
Qed.

Lemma strip_by_all_space s : forallb sp s = true → strip_by sp s = [].
Proof.
  intros Hs. unfold strip_by, rstrip_by.
  by rewrite (lstrip_by_all_space s Hs).
Qed.
End SequenceFacts.

(** ** model.py: tokenisation *)

(** C10. [run_once] strips the text and then splits it at whitespace: no
    token is empty, no token holds a whitespace character, and a text of
    whitespace only (the empty text included) gives the empty token list,
    of length 0. *)
Theorem run_once_tokens_edge (text : pystr) :
  Model.run_once_tokens text = split (strip text)
  ∧ Forall (λ tok, tok ≠ []) (Model.run_once_tokens text)
  ∧ Forall (Forall (λ c, isspace c = false)) (Model.run_once_tokens text)
  ∧ (forallb isspace text = true →
     Model.run_once_tokens text = [] ∧ length (Model.run_once_tokens text) = 0%nat).
Proof.
  unfold Model.run_once_tokens, split, strip. split_and!.
  - done.
  - apply split_by_nonempty.
  - by apply split_by_no_space.
  - intros Hws. by rewrite strip_by_all_space.
Qed.

Lemma run_once_tokens_edge_witness :
  forallb isspace (lit "  ") = true
  ∧ Model.run_once_tokens (lit "  ") = []
  ∧ Model.run_once_tokens [] = []
  ∧ Model.run_once_tokens (lit " Calzolari , N.  ( 1982 ) ")
    = [lit "Calzolari"; lit ","; lit "N."; lit "("; lit "1982"; lit ")"].
Proof.
  split; [reflexivity|]. split_and!.
  - apply (run_once_tokens_edge (lit "  ")). reflexivity.
  - apply (run_once_tokens_edge []). reflexivity.
  - reflexivity.
Defined.

(** The tokens are exactly the non-whitespace characters, in order. *)
Lemma run_once_tokens_concat (text : pystr) :
  concat (Model.run_once_tokens text) = filter (λ c, isspace c = false) text.
Proof.
  unfold Model.run_once_tokens, split, strip.
  by rewrite split_by_concat, strip_by_filter.
Qed.

(** ** model.py: [resolve_path] *)

Section ResolveFacts.
Variable unicode_lower : pystr → pystr.
Implicit Types (w : world) (cli dflt : option pystr) (key p : pystr).

Local Abbreviation resolve := (Model.resolve_path unicode_lower).

Lemma truthy_Some p : p ≠ [] → truthy (Some p) = true.
Proof. by destruct p. Qed.

(** The code's choice is the candidate of the specification. *)
Lemma py_or_candidate w cli key dflt :
  py_or (py_or cli (environ w !! key)) dflt = Model.candidate w cli key dflt.
Proof.
  unfold Model.candidate, py_or.
  destruct cli as [[|c p]|]; cbn; destruct (environ w !! key) as [[|c' p']|];
    done.
Qed.

Lemma resolve_path_ok w cli key dflt p :
  Model.candidate w cli key dflt = Some p → p ≠ [] → is_file w p = true →
  resolve cli key dflt w = (Ok p, w).
Proof.
  intros Hc Hp Hf.
  unfold Model.resolve_path, getenv, isfile, get_world, mbind, M_bind,
    mret, M_ret.
  rewrite py_or_candidate, Hc.
  destruct p as [|c p]; [done|]. by rewrite Hf.
Qed.

Lemma resolve_path_raise w cli key dflt :
  truthy (Model.candidate w cli key dflt) = false
  ∨ is_file w (str_of (Model.candidate w cli key dflt)) = false →
  resolve cli key dflt w
  = (Raise (MkExn FileNotFoundError
              (Model.not_found_message unicode_lower
                 (Model.candidate w cli key dflt) key)), w).
Proof.
  intros Hc.
  unfold Model.resolve_path, getenv, isfile, get_world, mbind, M_bind,
    mret, M_ret.
  rewrite py_or_candidate.
  destruct (Model.candidate w cli key dflt) as [[|c p]|]; try done.
  destruct Hc as [Hc|Hc]; [done|]. cbn in Hc. by rewrite Hc.
Qed.

Lemma selects_candidate w cli key dflt p :
  Model.selects w cli key dflt p → Model.candidate w cli key dflt = Some p.
Proof.
  unfold Model.candidate. intros [-> Hp|Hcli He Hp|Hcli He -> Hp].
  - by destruct p.
  - destruct cli as [[|]|]; try done; rewrite He; by destruct p.
  - destruct cli as [[|]|]; try done;
      by destruct (environ w !! key) as [[|]|].
Qed.

(** C4, amended. The value selected is the explicit one when it is
    non-empty, else the environment value when it is set and non-empty,
    else the default, whatever the later sources hold.  When the
    selected value names an existing file it is returned; when it does
    not, the call fails with [FileNotFoundError] naming that value: a
    later source is never tried in its place.  The world is left as it
    was. *)
Theorem resolve_path_precedence w cli key dflt p :
  Model.selects w cli key dflt p →
  (is_file w p = true → resolve cli key dflt w = (Ok p, w))
  ∧ (is_file w p = false →
     ∃ msg,
       resolve cli key dflt w = (Raise (MkExn FileNotFoundError msg), w)
       ∧ contains p msg = true).
Proof.
  intros Hsel. pose proof (selects_candidate _ _ _ _ _ Hsel) as Hc. split.
  - intros Hf. apply resolve_path_ok; [done| |done]. by destruct Hsel.
  - intros Hf. eexists. split.
    + apply resolve_path_raise. right. by rewrite Hc.
    + rewrite Hc. unfold Model.not_found_message. apply contains_app.
Qed.

(** Conversely, whatever is returned was selected that way and is a
    file. *)
Lemma resolve_path_ok_inv w cli key dflt p w' :
  resolve cli key dflt w = (Ok p, w') →
  Model.selects w cli key dflt p ∧ is_file w p = true ∧ w' = w.
Proof.
  destruct (truthy (Model.candidate w cli key dflt)) eqn:Ht;
    [destruct (is_file w (str_of (Model.candidate w cli key dflt))) eqn:Hf|].
  - destruct (Model.candidate w cli key dflt) as [[|c q]|] eqn:Hc; try done.
    rewrite (resolve_path_ok w cli key dflt (c :: q)) by done.
    intros [= <- <-]. split_and!; [|done..].
    unfold Model.candidate in Hc.
    destruct cli as [[|c' q']|].
    + destruct (environ w !! key) as [[|c'' q'']|] eqn:He.
      * apply Model.selects_default; rewrite ?He; done.
      * injection Hc as <- <-. by apply Model.selects_env.
      * apply Model.selects_default; rewrite ?He; done.
    + injection Hc as <- <-. by apply Model.selects_explicit.
    + destruct (environ w !! key) as [[|c'' q'']|] eqn:He.
      * apply Model.selects_default; rewrite ?He; done.
      * injection Hc as <- <-. by apply Model.selects_env.
      * apply Model.selects_default; rewrite ?He; done.
  - rewrite resolve_path_raise by auto. done.
  - rewrite resolve_path_raise by auto. done.
Qed.

(** C6. When the candidate is empty or names no existing regular file,
    [resolve_path] raises [FileNotFoundError]; the message holds the
    candidate as attempted and the name of the environment variable
    that may be set. *)
Theorem resolve_path_not_found w cli key dflt :
  truthy (Model.candidate w cli key dflt) = false
  ∨ is_file w (str_of (Model.candidate w cli key dflt)) = false →
  ∃ msg,
    resolve cli key dflt w = (Raise (MkExn FileNotFoundError msg), w)
    ∧ isinstance (MkExn FileNotFoundError msg) FileNotFoundError = true
    ∧ contains (str_of (Model.candidate w cli key dflt)) msg = true
    ∧ contains key msg = true.
Proof.
  intros Hc. eexists. split; [by apply resolve_path_raise|].
  split; [done|]. unfold Model.not_found_message. split.
  - apply contains_app.
  - rewrite !(assoc_L (++) _ _ (key ++ _)). apply contains_app.
Qed.
End ResolveFacts.

(** Three routes through the precedence, on [resolver_world], and a
    selected environment value that names no file: the call fails
    although the default is an existing file. *)
Lemma resolve_path_precedence_witness :
  Model.resolve_path ascii_lower (Some (lit "/ok")) (lit "ELMO_OPTIONS")
    (Some (lit "/other")) resolver_world = (Ok (lit "/ok"), resolver_world)
  ∧ Model.resolve_path ascii_lower (Some []) (lit "ELMO_WEIGHTS")
      (Some (lit "/other")) resolver_world = (Ok (lit "/ok"), resolver_world)
  ∧ Model.resolve_path ascii_lower None (lit "ELMO_UNSET")
      (Some (lit "/ok")) resolver_world = (Ok (lit "/ok"), resolver_world)
  ∧ ∃ msg,
      Model.resolve_path ascii_lower None (lit "ELMO_OPTIONS")
        (Some (lit "/ok")) resolver_world
      = (Raise (MkExn FileNotFoundError msg), resolver_world)
      ∧ contains (lit "/missing") msg = true.
Proof.
  split_and!.
  - apply (resolve_path_precedence ascii_lower resolver_world
             (Some (lit "/ok")) (lit "ELMO_OPTIONS") (Some (lit "/other"))
             (lit "/ok")); [|reflexivity].
    apply Model.selects_explicit; [reflexivity|by vm_compute].
  - apply (resolve_path_precedence ascii_lower resolver_world
             (Some []) (lit "ELMO_WEIGHTS") (Some (lit "/other"))
             (lit "/ok")); [|reflexivity].
    apply Model.selects_env; [reflexivity|reflexivity|by vm_compute].
  - apply (resolve_path_precedence ascii_lower resolver_world
             None (lit "ELMO_UNSET") (Some (lit "/ok")) (lit "/ok"));
      [|reflexivity].
    apply Model.selects_default;
      [reflexivity|reflexivity|reflexivity|by vm_compute].
  - apply (resolve_path_precedence ascii_lower resolver_world
             None (lit "ELMO_OPTIONS") (Some (lit "/ok")) (lit "/missing"));
      [|reflexivity].
    apply Model.selects_env; [reflexivity|reflexivity|by vm_compute].
Defined.

(** C4 as stated fails: with no explicit value and the environment
    naming a missing file, the default, an existing file, is what the
    fall-through reading returns, and [resolve_path] raises. *)
Lemma resolve_path_no_fall_through :
  Model.claimed_resolve resolver_world None (lit "ELMO_OPTIONS")
    (Some (lit "/ok")) = Some (lit "/ok")
  ∧ ∃ msg,
      Model.resolve_path ascii_lower None (lit "ELMO_OPTIONS")
        (Some (lit "/ok")) resolver_world
      = (Raise (MkExn FileNotFoundError msg), resolver_world)
      ∧ contains (lit "/missing") msg = true.
Proof.
  split; [reflexivity|]. eexists. split; [|].
  - apply resolve_path_raise. right. reflexivity.
  - reflexivity.
Qed.

(** Scenario: [resolve_path(None, "ELMO_OPTIONS", "/bad/path")] with the
    variable unset. *)
Lemma resolve_path_not_found_witness :
  ∃ msg,
    Model.resolve_path ascii_lower None (lit "ELMO_OPTIONS")
      (Some (lit "/bad/path")) empty_world
    = (Raise (MkExn FileNotFoundError msg), empty_world)
    ∧ isinstance (MkExn FileNotFoundError msg) FileNotFoundError = true
    ∧ contains (lit "/bad/path") msg = true
    ∧ contains (lit "ELMO_OPTIONS") msg = true.
Proof.
  apply (resolve_path_not_found ascii_lower empty_world None
           (lit "ELMO_OPTIONS") (Some (lit "/bad/path"))).
  right. reflexivity.
Defined.

(** ** The UTF-8 codec *)

Lemma byte_val_range b : 0 ≤ byte_val b < 256.
Proof. unfold byte_val. pose proof (Byte.to_N_bounded b). lia. Qed.

Lemma mk_byte_val b : mk_byte (byte_val b) = b.
Proof. unfold mk_byte, byte_val. by rewrite N2Z.id, Byte.of_to_N. Qed.

Lemma mk_byte_eq z b : z = byte_val b → mk_byte z = b.
Proof. intros ->. apply mk_byte_val. Qed.

Lemma is_continuation_range b :
  negb (is_continuation b) = false → 0x80 ≤ b < 0xC0.
Proof. unfold is_continuation. lia. Qed.

Local Ltac decode_eq :=
  intros; cbn [app utf8_decode];
  repeat match goal with
         | H : (_ <? _) = _ |- _ => rewrite H
         | H : negb _ = _ |- _ => rewrite H
         | H : (_ || _) = _ |- _ => rewrite H
         end;
  done.

Local Ltac encode_eq :=
  unfold utf8_encode_char;
  repeat match goal with
         | |- context [if ?c then _ else _] =>
           first [ replace c with true by lia | replace c with false by lia ]
         end;
  repeat f_equal; apply mk_byte_eq;
  (Z.div_mod_to_equations; lia).

(** Every non-empty input starts with a well-formed sequence or with an
    error range. *)
Lemma utf8_decode_step bs : bs ≠ [] → decode_step bs.
Proof.
  destruct bs as [|x0 t0]; [done|intros _].
  pose proof (byte_val_range x0) as R0.
  destruct (byte_val x0 <? 0x80) eqn:L1.
  { apply (step_char _ (byte_val x0) [x0] t0); [done|done|encode_eq|decode_eq]. }
  destruct (byte_val x0 <? 0xC2) eqn:L2.
  { apply (step_error _ [x0] t0); [done|done|decode_eq]. }
  destruct (byte_val x0 <? 0xE0) eqn:L3.
  { (* two bytes *)
    destruct t0 as [|x1 t1].
    { apply (step_error _ [x0] []); [done|done|decode_eq]. }
    pose proof (byte_val_range x1) as R1.
    destruct (negb (is_continuation (byte_val x1))) eqn:C1.
    { apply (step_error _ [x0] (x1 :: t1)); [done|done|decode_eq]. }
    apply is_continuation_range in C1 as K1.
    apply (step_char _ ((byte_val x0 - 0xC0) * 64 + (byte_val x1 - 0x80))
             [x0; x1] t1); [done|done|encode_eq|decode_eq]. }
  destruct (byte_val x0 <? 0xF0) eqn:L4.
  { (* three bytes *)
    destruct t0 as [|x1 t1].
    { apply (step_error _ [x0] []); [done|done|decode_eq]. }
    pose proof (byte_val_range x1) as R1.
    destruct (negb (is_continuation (byte_val x1))
              || (if byte_val x1 <? 0xA0 then byte_val x0 =? 0xE0
                  else byte_val x0 =? 0xED)) eqn:C1.
    { apply (step_error _ [x0] (x1 :: t1)); [done|done|decode_eq]. }
    assert (0x80 ≤ byte_val x1 < 0xC0
            ∧ (byte_val x0 = 0xE0 → 0xA0 ≤ byte_val x1)
            ∧ (byte_val x0 = 0xED → byte_val x1 < 0xA0)) as (K1 & Lo & Hi).
    { revert C1. unfold is_continuation.
      destruct (byte_val x1 <? 0xA0) eqn:E; lia. }
    destruct t1 as [|x2 t2].
    { apply (step_error _ [x0; x1] []); [done|done|decode_eq]. }
    pose proof (byte_val_range x2) as R2.
    destruct (negb (is_continuation (byte_val x2))) eqn:C2.
    { apply (step_error _ [x0; x1] (x2 :: t2)); [done|done|decode_eq]. }
    apply is_continuation_range in C2 as K2.
    apply (step_char _ ((byte_val x0 - 0xE0) * 4096
                        + (byte_val x1 - 0x80) * 64 + (byte_val x2 - 0x80))
             [x0; x1; x2] t2); [done|done|encode_eq|decode_eq]. }
  destruct (byte_val x0 <? 0xF5) eqn:L5.
  { (* four bytes *)
    destruct t0 as [|x1 t1].
    { apply (step_error _ [x0] []); [done|done|decode_eq]. }
    pose proof (byte_val_range x1) as R1.
    destruct (negb (is_continuation (byte_val x1))
              || (if byte_val x1 <? 0x90 then byte_val x0 =? 0xF0
                  else byte_val x0 =? 0xF4)) eqn:C1.
    { apply (step_error _ [x0] (x1 :: t1)); [done|done|decode_eq]. }
    assert (0x80 ≤ byte_val x1 < 0xC0
            ∧ (byte_val x0 = 0xF0 → 0x90 ≤ byte_val x1)
            ∧ (byte_val x0 = 0xF4 → byte_val x1 < 0x90)) as (K1 & Lo & Hi).
    { revert C1. unfold is_continuation.
      destruct (byte_val x1 <? 0x90) eqn:E; lia. }
    destruct t1 as [|x2 t2].
    { apply (step_error _ [x0; x1] []); [done|done|decode_eq]. }
    pose proof (byte_val_range x2) as R2.
    destruct (negb (is_continuation (byte_val x2))) eqn:C2.
    { apply (step_error _ [x0; x1] (x2 :: t2)); [done|done|decode_eq]. }
    apply is_continuation_range in C2 as K2.
    destruct t2 as [|x3 t3].
    { apply (step_error _ [x0; x1; x2] []); [done|done|decode_eq]. }
    pose proof (byte_val_range x3) as R3.
    destruct (negb (is_continuation (byte_val x3))) eqn:C3.
    { apply (step_error _ [x0; x1; x2] (x3 :: t3)); [done|done|decode_eq]. }
    apply is_continuation_range in C3 as K3.
    apply (step_char _ ((byte_val x0 - 0xF0) * 262144
                        + (byte_val x1 - 0x80) * 4096
                        + (byte_val x2 - 0x80) * 64 + (byte_val x3 - 0x80))
             [x0; x1; x2; x3] t3); [done|done|encode_eq|decode_eq]. }
  apply (step_error _ [x0] t0); [done|done|decode_eq].
Qed.

Lemma utf8_encode_cons c s used bs :
  utf8_encode_char c = Ok used → utf8_encode s = Ok bs →
  utf8_encode (c :: s) = Ok (used ++ bs).
Proof. intros Hc Hs. cbn. by rewrite Hc, Hs. Qed.

(** Decoding with [errors="ignore"] never fails; its result is the strict
    decoding of the input with some bytes left out, and encodes back to
    exactly the bytes that were kept. *)
Lemma utf8_decode_ignore_total bs :
  ∃ t kept,
    utf8_decode ignore bs = Ok t
    ∧ kept `sublist_of` bs
    ∧ utf8_decode strict kept = Ok t
    ∧ utf8_encode t = Ok kept.
Proof.
  remember (length bs) as n eqn:Hn. revert bs Hn.
  induction n as [n IH] using lt_wf_ind. intros bs ->.
  destruct (decide (bs = [])) as [->|Hne]; [by exists [], []|].
  destruct (utf8_decode_step bs Hne) as [c used rest -> Hu Henc Hdec
                                        |used rest Hbs Hu Hdec].
  - destruct (IH (length rest)) with (bs := rest)
      as (t & kept & Ht & Hsub & Hstrict & Hback); [|done|].
    { rewrite length_app. destruct used; [done|cbn; lia]. }
    exists (c :: t), (used ++ kept). split_and!.
    + by rewrite Hdec, Ht.
    + by apply sublist_app.
    + by rewrite Hdec, Hstrict.
    + by apply utf8_encode_cons.
  - destruct (IH (length rest)) with (bs := rest)
      as (t & kept & Ht & Hsub & Hstrict & Hback); [|done|].
    { rewrite Hbs, length_app. destruct used; [done|cbn; lia]. }
    exists t, kept. split_and!; [by rewrite Hdec| |done|done].
    rewrite Hbs. by apply sublist_inserts_l.
Qed.

(** A strict decoding, when there is one, is what every handler returns,
    and encoding it gives the input back. *)
Lemma utf8_decode_strict_roundtrip bs t :
  utf8_decode strict bs = Ok t →
  utf8_encode t = Ok bs ∧ ∀ errors, utf8_decode errors bs = Ok t.
Proof.
  remember (length bs) as n eqn:Hn. revert bs t Hn.
  induction n as [n IH] using lt_wf_ind. intros bs t -> Hs.
  destruct (decide (bs = [])) as [->|Hne].
  { cbn in Hs. injection Hs as <-. done. }
  destruct (utf8_decode_step bs Hne) as [c used rest -> Hu Henc Hdec
                                        |used rest Hbs Hu Hdec].
  - rewrite Hdec in Hs.
    destruct (utf8_decode strict rest) as [t'|] eqn:Hrest; [|done].
    cbn in Hs. injection Hs as <-.
    destruct (IH (length rest)) with (bs := rest) (t := t')
      as [Hback Hall]; [|done|done|].
    { rewrite length_app. destruct used; [done|cbn; lia]. }
    split; [by apply utf8_encode_cons|].
    intros errors. by rewrite Hdec, Hall.
  - by rewrite Hdec in Hs.
Qed.

(** ** The decoder against the table of well-formed sequences *)

Local Ltac wfa_eq :=
  unfold well_formed_at, in_range; cbv beta iota zeta;
  repeat (match goal with
          | |- context [match ?t with [] => _ | _ :: _ => _ end] =>
            is_var t; destruct t
          | |- context [if ?c then _ else _] =>
            first [ replace c with true by lia | replace c with false by lia ]
          end; cbv beta iota zeta);
  reflexivity.

Local Ltac skip_range :=
  let parts := fresh "parts" in
  let Hp := fresh "Hp" in
  intros parts Hp;
  repeat (first [ exact Hp | apply parts_skip; [wfa_eq|] ]).

Lemma utf8_decode_scan bs : bs ≠ [] → scan_step bs.
Proof.
  destruct bs as [|x0 t0]; [done|intros _].
  pose proof (byte_val_range x0) as R0.
  destruct (byte_val x0 <? 0x80) eqn:L1.
  { apply (scan_char _ (byte_val x0) 1); [wfa_eq|cbn; lia|intros; cbn [firstn]; decode_eq]. }
  destruct (byte_val x0 <? 0xC2) eqn:L2.
  { apply (scan_error _ [x0] t0); [done|done|decode_eq|skip_range]. }
  destruct (byte_val x0 <? 0xE0) eqn:L3.
  { (* two bytes *)
    destruct t0 as [|x1 t1].
    { apply (scan_error _ [x0] []); [done|done|decode_eq|skip_range]. }
    pose proof (byte_val_range x1) as R1.
    destruct (negb (is_continuation (byte_val x1))) eqn:C1.
    { apply (scan_error _ [x0] (x1 :: t1)); [done|done|decode_eq|].
      assert (¬ 0x80 ≤ byte_val x1 < 0xC0) as K1
        by (revert C1; unfold is_continuation; lia).
      skip_range. }
    apply is_continuation_range in C1 as K1.
    apply (scan_char _ ((byte_val x0 - 0xC0) * 64 + (byte_val x1 - 0x80)) 2);
      [wfa_eq|cbn; lia|intros; cbn [firstn]; decode_eq]. }
  destruct (byte_val x0 <? 0xF0) eqn:L4.
  { (* three bytes *)
    destruct t0 as [|x1 t1].
    { apply (scan_error _ [x0] []); [done|done|decode_eq|skip_range]. }
    pose proof (byte_val_range x1) as R1.
    destruct (negb (is_continuation (byte_val x1))
              || (if byte_val x1 <? 0xA0 then byte_val x0 =? 0xE0
                  else byte_val x0 =? 0xED)) eqn:C1.
    { apply (scan_error _ [x0] (x1 :: t1)); [done|done|decode_eq|].
      assert (¬ 0x80 ≤ byte_val x1 < 0xC0
              ∨ (byte_val x0 = 0xE0 ∧ byte_val x1 < 0xA0)
              ∨ (byte_val x0 = 0xED ∧ 0xA0 ≤ byte_val x1)) as K1.
      { revert C1. unfold is_continuation.
        destruct (byte_val x1 <? 0xA0) eqn:E; lia. }
      skip_range. }
    assert (0x80 ≤ byte_val x1 < 0xC0
            ∧ (byte_val x0 = 0xE0 → 0xA0 ≤ byte_val x1)
            ∧ (byte_val x0 = 0xED → byte_val x1 < 0xA0)) as (K1 & Lo & Hi).
    { revert C1. unfold is_continuation.
      destruct (byte_val x1 <? 0xA0) eqn:E; lia. }
    destruct t1 as [|x2 t2].
    { apply (scan_error _ [x0; x1] []); [done|done|decode_eq|skip_range]. }
    pose proof (byte_val_range x2) as R2.
    destruct (negb (is_continuation (byte_val x2))) eqn:C2.
    { apply (scan_error _ [x0; x1] (x2 :: t2)); [done|done|decode_eq|].
      assert (¬ 0x80 ≤ byte_val x2 < 0xC0) as K2
        by (revert C2; unfold is_continuation; lia).
      skip_range. }
    apply is_continuation_range in C2 as K2.
    apply (scan_char _ ((byte_val x0 - 0xE0) * 4096
                        + (byte_val x1 - 0x80) * 64 + (byte_val x2 - 0x80)) 3);
      [wfa_eq|cbn; lia|intros; cbn [firstn]; decode_eq]. }
  destruct (byte_val x0 <? 0xF5) eqn:L5.
  { (* four bytes *)
    destruct t0 as [|x1 t1].
    { apply (scan_error _ [x0] []); [done|done|decode_eq|skip_range]. }
    pose proof (byte_val_range x1) as R1.
    destruct (negb (is_continuation (byte_val x1))
              || (if byte_val x1 <? 0x90 then byte_val x0 =? 0xF0
                  else byte_val x0 =? 0xF4)) eqn:C1.
    { apply (scan_error _ [x0] (x1 :: t1)); [done|done|decode_eq|].
      assert (¬ 0x80 ≤ byte_val x1 < 0xC0
              ∨ (byte_val x0 = 0xF0 ∧ byte_val x1 < 0x90)
              ∨ (byte_val x0 = 0xF4 ∧ 0x90 ≤ byte_val x1)) as K1.
      { revert C1. unfold is_continuation.
        destruct (byte_val x1 <? 0x90) eqn:E; lia. }
      skip_range. }
    assert (0x80 ≤ byte_val x1 < 0xC0
            ∧ (byte_val x0 = 0xF0 → 0x90 ≤ byte_val x1)
            ∧ (byte_val x0 = 0xF4 → byte_val x1 < 0x90)) as (K1 & Lo & Hi).
    { revert C1. unfold is_continuation.
      destruct (byte_val x1 <? 0x90) eqn:E; lia. }
    destruct t1 as [|x2 t2].
    { apply (scan_error _ [x0; x1] []); [done|done|decode_eq|skip_range]. }
    pose proof (byte_val_range x2) as R2.
    destruct (negb (is_continuation (byte_val x2))) eqn:C2.
    { apply (scan_error _ [x0; x1] (x2 :: t2)); [done|done|decode_eq|].
      assert (¬ 0x80 ≤ byte_val x2 < 0xC0) as K2
        by (revert C2; unfold is_continuation; lia).
      skip_range. }
    apply is_continuation_range in C2 as K2.
    destruct t2 as [|x3 t3].
    { apply (scan_error _ [x0; x1; x2] []);
        [done|done|decode_eq|skip_range]. }
    pose proof (byte_val_range x3) as R3.
    destruct (negb (is_continuation (byte_val x3))) eqn:C3.
    { apply (scan_error _ [x0; x1; x2] (x3 :: t3)); [done|done|decode_eq|].
      assert (¬ 0x80 ≤ byte_val x3 < 0xC0) as K3
        by (revert C3; unfold is_continuation; lia).
      skip_range. }
    apply is_continuation_range in C3 as K3.
    apply (scan_char _ ((byte_val x0 - 0xF0) * 262144
                        + (byte_val x1 - 0x80) * 4096
                        + (byte_val x2 - 0x80) * 64 + (byte_val x3 - 0x80)) 4);
      [wfa_eq|cbn; lia|intros; cbn [firstn]; decode_eq]. }
  apply (scan_error _ [x0] t0); [done|done|decode_eq|skip_range].
Qed.

Lemma well_formed_parts_sublist bs parts :
  well_formed_parts bs parts → concat parts `sublist_of` bs.
Proof.
  induction 1 as [|bs n parts _ _ IH|b rest parts _ _ IH]; [done| |].
  - cbn [concat]. rewrite <-(take_drop n bs) at 2. by apply sublist_app.
  - by apply sublist_cons.
Qed.

(** Decoding with [errors="ignore"] keeps exactly the well-formed
    sequences of the input, each decoded to its code point, and leaves
    out every byte at which none starts; on an input that decodes
    strictly nothing is left out. *)
Lemma utf8_decode_ignore_parts bs :
  ∃ t parts,
    utf8_decode ignore bs = Ok t
    ∧ well_formed_parts bs parts
    ∧ Forall2 (λ part c, utf8_decode strict part = Ok [c]) parts t
    ∧ utf8_decode strict (concat parts) = Ok t
    ∧ (∀ t', utf8_decode strict bs = Ok t' → concat parts = bs).
Proof.
  remember (length bs) as n eqn:Hn. revert bs Hn.
  induction n as [n IH] using lt_wf_ind. intros bs ->.
  destruct (decide (bs = [])) as [->|Hne].
  { exists [], []. split_and!; [done|constructor|constructor|done|done]. }
  destruct (utf8_decode_scan bs Hne) as [c k Hwf Hk Hdec
                                        |used rest Hbs Hu Hdec Hskip].
  - destruct (IH (length (drop k bs))) with (bs := drop k bs)
      as (t & parts & Ht & Hparts & Hall & Hstrict & Hwhole); [|done|].
    { rewrite length_drop. lia. }
    assert (∀ errors,
              utf8_decode errors bs = emit c (utf8_decode errors (drop k bs)))
      as Hbs.
    { intros errors. by rewrite <-Hdec, take_drop. }
    exists (c :: t), (take k bs :: parts). split_and!.
    + by rewrite Hbs, Ht.
    + by apply parts_keep.
    + constructor; [|done].
      specialize (Hdec strict []). by rewrite app_nil_r in Hdec.
    + cbn [concat]. by rewrite Hdec, Hstrict.
    + intros t'. rewrite Hbs.
      destruct (utf8_decode strict (drop k bs)) as [t''|] eqn:Hrest; [|done].
      intros _. cbn [concat]. rewrite (Hwhole t'') by done.
      apply take_drop.
  - destruct (IH (length rest)) with (bs := rest)
      as (t & parts & Ht & Hparts & Hall & Hstrict & Hwhole); [|done|].
    { rewrite Hbs, length_app. destruct used; [done|cbn; lia]. }
    exists t, parts. split_and!; [by rewrite Hdec|by apply Hskip|done|done|].
    intros t'. by rewrite Hdec.
Qed.

Lemma utf8_encode_encodable s bs :
  utf8_encode s = Ok bs → Forall encodable s.
Proof.
  revert bs. induction s as [|c s IH]; intros bs Hs; [done|].
  cbn in Hs. destruct (utf8_encode_char c) as [used|] eqn:Hc; [|done].
  destruct (utf8_encode s) as [bs'|] eqn:Hs'; [|done].
  constructor; [by exists used|by eapply IH].
Qed.

Lemma encodable_utf8_encode s :
  Forall encodable s → ∃ bs, utf8_encode s = Ok bs.
Proof.
  induction 1 as [|c s [used Hc] _ [bs Hs]]; [by exists []|].
  exists (used ++ bs). by apply utf8_encode_cons.
Qed.

(** ** Newline translation *)

Lemma encodable_LF : encodable LF.
Proof. by eexists. Qed.

Lemma encodable_CR : encodable CR.
Proof. by eexists. Qed.

Lemma universal_newlines_encodable s :
  Forall encodable s → Forall encodable (universal_newlines s).
Proof.
  remember (length s) as n eqn:Hn. revert s Hn.
  induction n as [n IH] using lt_wf_ind. intros s -> Hs.
  destruct s as [|c t]; [done|]. cbn [universal_newlines].
  apply Forall_cons in Hs as [Hc Ht].
  destruct (c =? CR).
  - constructor; [apply encodable_LF|].
    destruct t as [|c' t']; [done|].
    apply Forall_cons in Ht as [Hc' Ht'].
    destruct (c' =? LF).
    + eapply IH; [|done|done]. cbn; lia.
    + eapply IH; [|done|by constructor]. cbn; lia.
  - constructor; [done|]. eapply IH; [|done|done]. cbn; lia.
Qed.

Lemma universal_newlines_id s : CR ∉ s → universal_newlines s = s.
Proof.
  induction s as [|c s IH]; [done|].
  intros [Hc Hs]%not_elem_of_cons. cbn [universal_newlines].
  destruct (c =? CR) eqn:E; [lia|]. f_equal. by apply IH.
Qed.

Lemma write_newlines_encodable linesep s :
  Forall encodable linesep → Forall encodable s →
  Forall encodable (write_newlines linesep s).
Proof.
  intros Hl. induction 1 as [|c s Hc _ IH]; [done|].
  unfold write_newlines. cbn [flat_map]. apply Forall_app. split; [|done].
  destruct (c =? LF); [done|by constructor].
Qed.

Lemma write_newlines_posix s : write_newlines (os_linesep Posix) s = s.
Proof.
  induction s as [|c s IH]; [done|].
  unfold write_newlines in *. cbn [flat_map].
  rewrite IH. destruct (c =? LF) eqn:E; [|done].
  cbn. f_equal. unfold LF in *. lia.
Qed.

Lemma os_linesep_encodable plat : Forall encodable (os_linesep plat).
Proof.
  destruct plat; repeat constructor;
    first [apply encodable_LF|apply encodable_CR].
Qed.

Lemma replace1_Forall {A} `{EqDecision A} (P : A → Prop) (old new s : list A) :
  Forall P new → Forall P s → Forall P (replace1 old new s).
Proof.
  intros Hnew. induction s as [|c s IH]; intros Hs; cbn [replace1].
  - destruct (startswith old []); [|done].
    apply Forall_app. split; [done|by apply Forall_drop].
  - destruct (startswith old (c :: s)).
    + apply Forall_app. split; [done|by apply Forall_drop].
    + apply Forall_cons in Hs as [Hc Hs]. constructor; [done|by apply IH].
Qed.

(** ** patch_sectlabel_lite.py *)

Section PatchFacts.
Import PatchSectlabelLite.
Variable plat : platform.
Implicit Types (w : world) (data : list byte) (t : pystr).

Local Abbreviation T := (path_str plat TARGET).
Local Abbreviation B := (path_str plat BACKUP).

Lemma target_not_backup : T ≠ B.
Proof. destruct plat; by vm_compute. Qed.

(** The import is still literally there in the block put in its
    place. *)
Lemma replacement_ends_with_sentinel :
  ∃ head, replacement = head ++ sentinel ++ [LF].
Proof.
  exists (take (length replacement - length sentinel - 1) replacement).
  by vm_compute.
Qed.

Lemma replacement_encodable : Forall encodable replacement.
Proof.
  destruct (utf8_encode replacement) as [bs|] eqn:E;
    [by eapply utf8_encode_encodable|].
  by vm_compute in E.
Qed.

Lemma patched_contains_sentinel pre post :
  contains sentinel (pre ++ replacement ++ post) = true.
Proof.
  destruct replacement_ends_with_sentinel as [head ->].
  rewrite <- !(assoc_L (++)), (assoc_L (++) pre head).
  apply contains_app.
Qed.

Lemma read_text_ignore w p data :
  files w !! p = Some (File data) →
  ∃ t kept,
    utf8_decode ignore data = Ok t
    ∧ read_text plat p ignore w = (Ok (universal_newlines t), w)
    ∧ kept `sublist_of` data
    ∧ utf8_decode strict kept = Ok t
    ∧ Forall encodable (universal_newlines t).
Proof.
  intros Hp.
  destruct (utf8_decode_ignore_total data)
    as (t & kept & Ht & Hsub & Hstrict & Hback).
  exists t, kept. split_and!; [done| |done|done|].
  - unfold read_text, get_world, mbind, M_bind, mret, M_ret.
    by rewrite Hp, Ht.
  - apply universal_newlines_encodable. by eapply utf8_encode_encodable.
Qed.

Lemma write_text_ok w p s :
  files w !! p ≠ Some Dir → Forall encodable s →
  ∃ bs,
    utf8_encode (write_newlines (os_linesep plat) s) = Ok bs
    ∧ write_text plat p s w
      = (Ok (), World (<[p := File bs]> (files w)) (environ w)
                      (events w ++ [Wrote p bs])).
Proof.
  intros Hp Hs.
  destruct (encodable_utf8_encode (write_newlines (os_linesep plat) s))
    as [bs Hbs].
  { apply write_newlines_encodable; [apply os_linesep_encodable|done]. }
  exists bs. split; [done|].
  unfold write_text, get_world, set_file, log_event, mbind, M_bind.
  rewrite Hbs. by destruct (files w !! p) as [[|]|].
Qed.

(** The target is missing: [SystemExit], nothing touched. *)
Lemma main_missing w :
  files w !! T = None → main plat w = (Raise (MkExn SystemExit (msg_missing plat)), w).
Proof.
  intros Hp. unfold main, path_exists, get_world, mbind, M_bind, mret, M_ret.
  by rewrite Hp.
Qed.

(** No sentinel: one line printed, nothing written. *)
Lemma main_skips w data t :
  files w !! T = Some (File data) → utf8_decode ignore data = Ok t →
  contains sentinel (universal_newlines t) = false →
  main plat w
  = (Ok (), World (files w) (environ w)
                  (events w ++ [Printed (msg_skipped)])).
Proof.
  intros Hp Ht Hs.
  destruct (read_text_ignore w T data Hp)
    as (t' & _ & Ht' & Hread & _ & _ & _).
  rewrite Ht in Ht'. injection Ht' as <-.
  unfold main. unfold mbind at 1, M_bind at 1.
  unfold path_exists, get_world, mbind at 1, M_bind at 1, mret, M_ret.
  rewrite Hp. cbn [negb]. unfold mbind at 1, M_bind at 1. rewrite Hread.
  by rewrite Hs.
Qed.

(** Sentinel present: backup written, then the target, then a line
    printed. *)
Lemma main_patches w data t :
  files w !! T = Some (File data) → utf8_decode ignore data = Ok t →
  contains sentinel (universal_newlines t) = true →
  files w !! B ≠ Some Dir →
  ∃ bak tgt,
    utf8_encode (write_newlines (os_linesep plat) (universal_newlines t))
    = Ok bak
    ∧ utf8_encode (write_newlines (os_linesep plat)
                     (replace1 sentinel replacement (universal_newlines t)))
      = Ok tgt
    ∧ main plat w
      = (Ok (), World (<[T := File tgt]> (<[B := File bak]> (files w)))
                      (environ w)
                      (events w ++ [Wrote B bak; Wrote T tgt;
                                    Printed (msg_patched plat)])).
Proof.
  intros Hp Ht Hs Hb.
  destruct (read_text_ignore w T data Hp) as (t' & _ & Ht' & Hread & _ & _ & Henc).
  rewrite Ht in Ht'. injection Ht' as <-.
  destruct (write_text_ok w B (universal_newlines t) Hb Henc)
    as (bak & Hbak & Hw1).
  set (w1 := World (<[B := File bak]> (files w)) (environ w)
                   (events w ++ [Wrote B bak])) in *.
  destruct (write_text_ok w1 T
              (replace1 sentinel replacement (universal_newlines t)))
    as (tgt & Htgt & Hw2).
  { subst w1. cbn [files].
    rewrite lookup_insert_ne by (symmetry; apply target_not_backup).
    by rewrite Hp. }
  { apply replace1_Forall; [apply replacement_encodable|done]. }
  exists bak, tgt. split_and!; [done|done|].
  unfold main. unfold mbind at 1, M_bind at 1.
  unfold path_exists, get_world, mbind at 1, M_bind at 1, mret, M_ret.
  rewrite Hp. cbn [negb]. unfold mbind at 1, M_bind at 1. rewrite Hread.
  rewrite Hs. cbn [negb]. unfold mbind at 1, M_bind at 1. rewrite Hw1.
  unfold mbind at 1, M_bind at 1. rewrite Hw2.
  unfold print, log_event. cbn. by rewrite <- !(assoc_L (++)).
Qed.
End PatchFacts.

Import PatchSectlabelLite.

Lemma occurrences_contains {A} `{EqDecision A} (old s : list A) :
  (0 < occurrences old s)%nat → contains old s = true.
Proof.
  induction s as [|c s IH]; cbn; destruct (startswith old _);
    first [done|lia|idtac].
Qed.

(** C3, amended. With the target missing, [main] raises [SystemExit]
    carrying a message that names the target, and touches nothing;
    [SystemExit] is not in the [FileNotFoundError] family, nor in the
    [OSError] or [Exception] ones. *)
Theorem main_missing_target (plat : platform) (w : world) :
  files w !! path_str plat TARGET = None →
  main plat w = (Raise (MkExn SystemExit (msg_missing plat)), w)
  ∧ contains (path_str plat TARGET) (msg_missing plat) = true
  ∧ issubclass SystemExit FileNotFoundError = false
  ∧ issubclass SystemExit Exception = false
  ∧ issubclass SystemExit BaseException = true.
Proof.
  intros Hp. split; [by apply main_missing|]. split; [|done].
  unfold msg_missing. rewrite <- (app_nil_r (path_str plat TARGET)) at 2.
  apply contains_app.
Qed.

Lemma main_missing_target_witness :
  main Windows empty_world
  = (Raise (MkExn SystemExit (msg_missing Windows)), empty_world).
Proof. apply (main_missing_target Windows empty_world). reflexivity. Defined.

(** C3 as stated fails: in the empty world the target is missing and what
    [main] raises is not an instance of [FileNotFoundError]. *)
Lemma main_missing_not_FileNotFoundError :
  files empty_world !! path_str Windows TARGET = None
  ∧ ¬ ∃ e, fst (main Windows empty_world) = Raise e
           ∧ isinstance e FileNotFoundError = true.
Proof.
  split; [reflexivity|]. rewrite main_missing by reflexivity.
  intros (e & [= <-] & He). done.
Qed.

(** C9, amended. Reading a file with [errors="ignore"] never fails.
    The text read is made of the well-formed UTF-8 sequences of the
    file, in order, each decoded to its code point (newlines then
    translated); every byte at which no well-formed sequence starts is
    dropped, nothing stands in for it, and no other byte is dropped.  A
    file that decodes strictly is read whole. *)
Theorem read_text_ignore_never_fails (plat : platform) (w : world)
    (p : pystr) (data : list byte) :
  files w !! p = Some (File data) →
  ∃ t parts,
    read_text plat p ignore w = (Ok (universal_newlines t), w)
    ∧ well_formed_parts data parts
    ∧ Forall2 (λ part c, utf8_decode strict part = Ok [c]) parts t
    ∧ concat parts `sublist_of` data
    ∧ utf8_decode strict (concat parts) = Ok t
    ∧ (∀ t', utf8_decode strict data = Ok t' → concat parts = data ∧ t' = t).
Proof.
  intros Hp.
  destruct (utf8_decode_ignore_parts data)
    as (t & parts & Ht & Hparts & Hall & Hstrict & Hwhole).
  exists t, parts. split_and!; [|done|done| |done|].
  - unfold read_text, get_world, mbind, M_bind, mret, M_ret.
    by rewrite Hp, Ht.
  - by apply well_formed_parts_sublist.
  - intros t' Ht'. specialize (Hwhole t' Ht'). split; [done|].
    rewrite Hwhole in Hstrict. congruence.
Qed.

Lemma read_text_ignore_never_fails_witness :
  ∃ t parts,
    read_text Posix (path_str Posix TARGET) ignore
      (target_world Posix [x61; xff; x62])
    = (Ok (universal_newlines t), target_world Posix [x61; xff; x62])
    ∧ well_formed_parts [x61; xff; x62] parts
    ∧ Forall2 (λ part c, utf8_decode strict part = Ok [c]) parts t
    ∧ concat parts `sublist_of` [x61; xff; x62]
    ∧ utf8_decode strict (concat parts) = Ok t
    ∧ (∀ t', utf8_decode strict [x61; xff; x62] = Ok t' →
             concat parts = [x61; xff; x62] ∧ t' = t).
Proof.
  apply (read_text_ignore_never_fails Posix
           (target_world Posix [x61; xff; x62]) (path_str Posix TARGET)
           [x61; xff; x62]).
  reflexivity.
Defined.

(** C9 as stated fails: the byte FF between "a" and "b" is undecodable;
    the text read is "ab", with nothing in the place of that byte, where
    substitution would have given U+FFFD. *)
Lemma read_text_ignore_drops :
  fst (read_text Posix (path_str Posix TARGET) ignore
         (target_world Posix [x61; xff; x62]))
  = Ok (lit "ab")
  ∧ utf8_decode replace [x61; xff; x62] = Ok [0x61; 0xFFFD; 0x62]
  ∧ utf8_decode strict [x61; xff; x62]
    = Raise (MkExn UnicodeDecodeError []).
Proof. by vm_compute. Qed.

(** C5, amended. On a patching run the backup is written before the
    target and nothing else is written; the backup holds the UTF-8
    encoding of the text as read (undecodable bytes dropped, line ends
    normalised and written back as the platform's).  It is the pre-patch
    content byte for byte when that content is well-formed UTF-8 without
    carriage returns and the platform's line separator is LF. *)
Theorem backup_before_target (plat : platform) (w : world)
    (data : list byte) (t : pystr) :
  files w !! path_str plat TARGET = Some (File data) →
  utf8_decode ignore data = Ok t →
  contains sentinel (universal_newlines t) = true →
  files w !! path_str plat BACKUP ≠ Some Dir →
  ∃ bak tgt w',
    main plat w = (Ok (), w')
    ∧ events w' = events w ++ [Wrote (path_str plat BACKUP) bak;
                               Wrote (path_str plat TARGET) tgt;
                               Printed (msg_patched plat)]
    ∧ files w' !! path_str plat BACKUP = Some (File bak)
    ∧ utf8_encode (write_newlines (os_linesep plat) (universal_newlines t))
      = Ok bak
    ∧ (plat = Posix → utf8_decode strict data = Ok t → CR ∉ t → bak = data).
Proof.
  intros Hp Ht Hs Hb.
  destruct (main_patches plat w data t Hp Ht Hs Hb)
    as (bak & tgt & Hbak & Htgt & Hmain).
  eexists bak, tgt, _. split_and!; [exact Hmain|done| |done|].
  - cbn [files].
    rewrite lookup_insert_ne by apply target_not_backup.
    apply lookup_insert_eq.
  - intros -> Hstrict Hcr.
    rewrite write_newlines_posix, universal_newlines_id in Hbak by done.
    apply utf8_decode_strict_roundtrip in Hstrict as [Hback _].
    congruence.
Qed.

Lemma backup_before_target_witness :
  ∃ bak tgt w',
    main Posix (target_world Posix sentinel_line) = (Ok (), w')
    ∧ events w' = [Wrote (path_str Posix BACKUP) bak;
                   Wrote (path_str Posix TARGET) tgt;
                   Printed (msg_patched Posix)]
    ∧ files w' !! path_str Posix BACKUP = Some (File bak)
    ∧ bak = sentinel_line.
Proof.
  destruct (backup_before_target Posix (target_world Posix sentinel_line)
              sentinel_line (sentinel ++ [LF]))
    as (bak & tgt & w' & Hmain & Hev & Hbak & _ & Heq);
    [reflexivity|reflexivity|reflexivity|by vm_compute|].
  exists bak, tgt, w'. split_and!; [done|done|done|].
  apply Heq; [reflexivity|reflexivity|].
  refine (bool_decide_unpack _ _). vm_compute. exact I.
Defined.

(** C5 as stated fails: the target is the byte FF followed by the import
    line; the run patches, and the backup it leaves is the import line
    without that byte. *)
Lemma backup_not_byte_for_byte :
  files (target_world Posix (xff :: sentinel_line)) !! path_str Posix TARGET
  = Some (File (xff :: sentinel_line))
  ∧ fst (main Posix (target_world Posix (xff :: sentinel_line))) = Ok ()
  ∧ files (snd (main Posix (target_world Posix (xff :: sentinel_line))))
      !! path_str Posix BACKUP
    = Some (File sentinel_line)
  ∧ sentinel_line ≠ xff :: sentinel_line.
Proof. by vm_compute. Qed.

(** When the text of the target holds the import line exactly once, one
    run puts the conditional block in its place and writes the result to
    the target; that result still holds the literal import line, in the
    last line of the block. *)
Lemma patched_target_keeps_import (plat : platform) (w : world)
    (data : list byte) (t : pystr) :
  files w !! path_str plat TARGET = Some (File data) →
  utf8_decode ignore data = Ok t →
  occurrences sentinel (universal_newlines t) = 1%nat →
  files w !! path_str plat BACKUP ≠ Some Dir →
  ∃ pre post tgt w',
    main plat w = (Ok (), w')
    ∧ universal_newlines t = pre ++ sentinel ++ post
    ∧ files w' !! path_str plat TARGET = Some (File tgt)
    ∧ utf8_encode (write_newlines (os_linesep plat)
                     (pre ++ replacement ++ post)) = Ok tgt
    ∧ contains sentinel (pre ++ replacement ++ post) = true.
Proof.
  intros Hp Ht Hocc Hb.
  assert (contains sentinel (universal_newlines t) = true) as Hs.
  { apply occurrences_contains. lia. }
  destruct (main_patches plat w data t Hp Ht Hs Hb)
    as (bak & tgt & Hbak & Htgt & Hmain).
  destruct (replace1_spec sentinel replacement _ Hs)
    as (pre & post & Hsrc & Hrep & _).
  rewrite Hrep in Htgt.
  eexists pre, post, tgt, _. split_and!; [exact Hmain|done| |done|].
  - cbn [files]. apply lookup_insert_eq.
  - apply patched_contains_sentinel.
Qed.

Lemma patched_target_keeps_import_witness :
  ∃ pre post tgt w',
    main Posix (target_world Posix sentinel_line) = (Ok (), w')
    ∧ sentinel ++ [LF] = pre ++ sentinel ++ post
    ∧ files w' !! path_str Posix TARGET = Some (File tgt)
    ∧ utf8_encode (write_newlines (os_linesep Posix)
                     (pre ++ replacement ++ post)) = Ok tgt
    ∧ contains sentinel (pre ++ replacement ++ post) = true.
Proof.
  apply (patched_target_keeps_import Posix (target_world Posix sentinel_line)
           sentinel_line (sentinel ++ [LF]));
    [reflexivity|reflexivity|reflexivity|by vm_compute].
Defined.

(** C2 fails on the code.  The target is the import line alone, so it
    holds the sentinel exactly once; after one run the target is
    well-formed UTF-8 whose text still holds the literal sentinel, where
    the claim has it gone. *)
Theorem patched_still_has_sentinel :
  occurrences sentinel (sentinel ++ [LF]) = 1%nat
  ∧ utf8_decode strict sentinel_line = Ok (sentinel ++ [LF])
  ∧ ∃ tgt t',
      files (snd (main Posix (target_world Posix sentinel_line)))
        !! path_str Posix TARGET = Some (File tgt)
      ∧ utf8_decode strict tgt = Ok t'
      ∧ contains sentinel t' = true.
Proof.
  split; [reflexivity|]. split; [reflexivity|].
  eexists _, _. split_and!; [by vm_compute|by vm_compute|by vm_compute].
Qed.

(** C8. On a target whose text holds the sentinel, [main] rewrites the
    leftmost occurrence only: the text before it and the text after it,
    later occurrences included, are written back as they were.  What
    stands in its place is five lines: [import os], an [if] on the
    lower-cased value of [SCIWING_LITE] being one of '1', 'true', 'yes',
    'y', the binding of [BowElmoEmbedder] to [None], [else:], and the
    original import, indented. *)
Theorem patch_replaces_first_occurrence (plat : platform) (w : world)
    (data : list byte) (t : pystr) :
  files w !! path_str plat TARGET = Some (File data) →
  utf8_decode ignore data = Ok t →
  contains sentinel (universal_newlines t) = true →
  files w !! path_str plat BACKUP ≠ Some Dir →
  ∃ pre post tgt w',
    main plat w = (Ok (), w')
    ∧ universal_newlines t = pre ++ sentinel ++ post
    ∧ (∀ pre' post',
         universal_newlines t = pre' ++ sentinel ++ post' →
         (length pre ≤ length pre')%nat)
    ∧ files w' !! path_str plat TARGET = Some (File tgt)
    ∧ utf8_encode (write_newlines (os_linesep plat)
                     (pre ++ replacement ++ post)) = Ok tgt
    ∧ replacement
      = join_lines
          [lit "import os";
           lit "if str(os.getenv('SCIWING_LITE','')).lower() in ('1','true','yes','y'):";
           lit "    BowElmoEmbedder = None  # LITE 模式：不触发 allennlp 依赖";
           lit "else:";
           lit "    " ++ sentinel].
Proof.
  intros Hp Ht Hs Hb.
  destruct (main_patches plat w data t Hp Ht Hs Hb)
    as (bak & tgt & Hbak & Htgt & Hmain).
  destruct (replace1_spec sentinel replacement _ Hs)
    as (pre & post & Hsrc & Hrep & Hfirst).
  rewrite Hrep in Htgt.
  eexists pre, post, tgt, _.
  split_and!; [exact Hmain|done|done| |done|by vm_compute].
  cbn [files]. apply lookup_insert_eq.
Qed.

(** Two occurrences: the first is rewritten, the second stays. *)
Lemma patch_replaces_first_occurrence_witness :
  ∃ pre post tgt w',
    main Posix (target_world Posix (sentinel_line ++ sentinel_line))
    = (Ok (), w')
    ∧ sentinel ++ [LF] ++ sentinel ++ [LF] = pre ++ sentinel ++ post
    ∧ (length pre ≤ 0)%nat
    ∧ files w' !! path_str Posix TARGET = Some (File tgt)
    ∧ utf8_encode (pre ++ replacement ++ post) = Ok tgt.
Proof.
  destruct (patch_replaces_first_occurrence Posix
              (target_world Posix (sentinel_line ++ sentinel_line))
              (sentinel_line ++ sentinel_line)
              (sentinel ++ [LF] ++ sentinel ++ [LF]))
    as (pre & post & tgt & w' & Hmain & Hsrc & Hfirst & Htgt & Henc & _);
    [reflexivity|reflexivity|reflexivity|by vm_compute|].
  rewrite universal_newlines_id in Hsrc, Hfirst
    by (refine (bool_decide_unpack _ _); vm_compute; exact I).
  rewrite write_newlines_posix in Henc.
  exists pre, post, tgt, w'. split_and!; [done|done| |done|done].
  apply (Hfirst [] ([LF] ++ sentinel ++ [LF])). reflexivity.
Defined.

(** C1 fails on the code.  The target is the import line alone.  The
    first run patches it.  The second run finds the sentinel again, in
    the last line of the block, and patches again: it overwrites the
    backup with the patched text of the first run and the target with a
    doubly patched text, where a run that had nothing to patch would have
    left both alone and printed one line. *)
Theorem second_run_patches_again :
  let w0 := target_world Posix sentinel_line in
  let w1 := snd (main Posix w0) in
  let w2 := snd (main Posix w1) in
  fst (main Posix w0) = Ok ()
  ∧ fst (main Posix w1) = Ok ()
  ∧ (∃ bak tgt,
       events w2 = events w1 ++ [Wrote (path_str Posix BACKUP) bak;
                                 Wrote (path_str Posix TARGET) tgt;
                                 Printed (msg_patched Posix)])
  ∧ files w2 !! path_str Posix TARGET ≠ files w1 !! path_str Posix TARGET
  ∧ files w2 !! path_str Posix BACKUP = files w1 !! path_str Posix TARGET
  ∧ files w2 !! path_str Posix BACKUP ≠ files w1 !! path_str Posix BACKUP.
Proof.
  cbv zeta. split_and!; try by vm_compute.
  eexists _, _. by vm_compute.
Qed.

(** ** probe_diag.py *)

Section ProbeFacts.
Import ProbeDiag.
Variable py : interpreter.
Implicit Types (w : world).

Lemma print_run s w : print s w = (Ok (), add_events w [Printed s]).
Proof. done. Qed.

Lemma add_events_add w es es' :
  add_events (add_events w es) es' = add_events w (es ++ es').
Proof. unfold add_events. cbn. by rewrite <- (assoc_L (++)). Qed.

(** [safe_import] turns an ordinary failure into a pair, and leaves
    any other to propagate. *)
Lemma safe_import_run name w :
  safe_import py name w
  = match import_module py name with
    | Ok m => (Ok (Some m, None), w)
    | Raise e =>
      if isinstance e Exception then (Ok (None, Some (exn_msg e)), w)
      else (Raise e, w)
    end.
Proof.
  unfold safe_import, try_except, lift, mbind, M_bind, mret, M_ret.
  by destruct (import_module py name).
Qed.


(** A smoke test whose module is missing reports so and returns. *)
Lemma spaCy_smoke_not_installed w :
  spaCy_smoke py None w
  = (Ok (), add_events w [Printed (format_kv (lit "SPACY SMOKE")
               (lit "FAILED -> " ++ lit "spacy not installed"))]).
Proof. done. Qed.

Lemma tbx_smoke_not_installed w :
  tbx_smoke py None w
  = (Ok (), add_events w [Printed (format_kv (lit "TENSORBOARDX SMOKE")
               (lit "FAILED -> " ++ lit "tensorboardX not installed"))]).
Proof. done. Qed.


End ProbeFacts.

Section ProbeMain.
Import ProbeDiag.
Variable py : interpreter.
Implicit Types (w : world).

Lemma environ_add_events w es : environ (add_events w es) = environ w.
Proof. done. Qed.



End ProbeMain.


Lemma torch_only_ordinary name :
  ordinary (ProbeDiag.import_module torch_only name).
Proof.
  intros e. unfold torch_only. cbn [ProbeDiag.import_module].
  destruct (bool_decide (name = lit "torch")); [done|].
  by intros [= <-].
Qed.


(** With only [torch] importable, one status line gives a version and
    six say "NOT INSTALLED", in the order of the probe list. *)
Lemma torch_only_status_lines :
  (λ name, status_of (ProbeDiag.import_module torch_only name))
  <$> packages.*1
  = [lit "NOT INSTALLED (No module named 'google.protobuf')";
     lit "NOT INSTALLED (No module named 'spacy')";
     lit "1.4.0";
     lit "NOT INSTALLED (No module named 'gensim')";
     lit "NOT INSTALLED (No module named 'tensorboardX')";
     lit "NOT INSTALLED (No module named 'lmdb')";
     lit "NOT INSTALLED (No module named 'sciwing')"].
Proof. by vm_compute. Qed.

(** A failure that is not an [Exception], [KeyboardInterrupt] say, is
    not caught by [safe_import]. *)
Lemma safe_import_propagates (py : ProbeDiag.interpreter) name msg w :
  ProbeDiag.import_module py name = Raise (MkExn KeyboardInterrupt msg) →
  ProbeDiag.safe_import py name w = (Raise (MkExn KeyboardInterrupt msg), w).
Proof. intros He. rewrite safe_import_run, He. done. Qed.

(** * Further properties *)

(** ** model.py: [resolve_path], continued *)

(** A path that [resolve_path] returns is not empty, names an existing
    regular file, and comes from the first source that is not empty. *)
Lemma resolve_path_returns_existing_file_witness :
  Model.selects resolver_world None (lit "ELMO_WEIGHTS") (Some (lit "/other"))
    (lit "/ok")
  ∧ is_file resolver_world (lit "/ok") = true.
Proof.
  destruct (resolve_path_ok_inv ascii_lower resolver_world None
              (lit "ELMO_WEIGHTS") (Some (lit "/other")) (lit "/ok")
              resolver_world) as (Hsel & Hfile & _); [reflexivity|].
  by split.
Defined.

(** [resolve_path] leaves the world as it was, and when it fails the
    failure is a [FileNotFoundError], whatever the arguments. *)
Theorem resolve_path_pure (unicode_lower : pystr → pystr) (w : world)
    (cli : option pystr) (key : pystr) (dflt : option pystr) :
  snd (Model.resolve_path unicode_lower cli key dflt w) = w
  ∧ match fst (Model.resolve_path unicode_lower cli key dflt w) with
    | Ok p => p ≠ [] ∧ is_file w p = true
    | Raise e => exn_class e = FileNotFoundError
    end.
Proof.
  destruct (truthy (Model.candidate w cli key dflt)) eqn:Ht;
    [destruct (is_file w (str_of (Model.candidate w cli key dflt))) eqn:Hf|].
  - destruct (Model.candidate w cli key dflt) as [[|c q]|] eqn:Hc; try done.
    by rewrite (resolve_path_ok unicode_lower w cli key dflt (c :: q)).
  - by rewrite resolve_path_raise by auto.
  - by rewrite resolve_path_raise by auto.
Qed.

(** The message of the failure suggests a command-line flag: two dashes
    and the lower-cased name of the variable without its first five
    characters. *)
Theorem resolve_path_hint (unicode_lower : pystr → pystr) (w : world)
    (cli : option pystr) (key : pystr) (dflt : option pystr) (e : exn) :
  fst (Model.resolve_path unicode_lower cli key dflt w) = Raise e →
  contains (lit "--" ++ unicode_lower (drop 5 key)) (exn_msg e) = true.
Proof.
  destruct (truthy (Model.candidate w cli key dflt)) eqn:Ht;
    [destruct (is_file w (str_of (Model.candidate w cli key dflt))) eqn:Hf|].
  - destruct (Model.candidate w cli key dflt) as [[|c q]|] eqn:Hc; try done.
    by rewrite (resolve_path_ok unicode_lower w cli key dflt (c :: q)).
  - rewrite resolve_path_raise by auto. intros [= <-]. cbn [exn_msg].
    unfold Model.not_found_message.
    change (lit "（可用 --") with (lit "（可用 " ++ lit "--").
    rewrite <- !(assoc_L (++)).
    rewrite (assoc_L (++) (lit "--")), (assoc_L (++) (lit "文件不存在：")),
      (assoc_L (++) (_ ++ _) (lit "（可用 ")).
    apply contains_app.
  - rewrite resolve_path_raise by auto. intros [= <-]. cbn [exn_msg].
    unfold Model.not_found_message.
    change (lit "（可用 --") with (lit "（可用 " ++ lit "--").
    rewrite <- !(assoc_L (++)).
    rewrite (assoc_L (++) (lit "--")), (assoc_L (++) (lit "文件不存在：")),
      (assoc_L (++) (_ ++ _) (lit "（可用 ")).
    apply contains_app.
Qed.

Lemma resolve_path_hint_witness :
  ∃ e,
    fst (Model.resolve_path ascii_lower None (lit "ELMO_OPTIONS")
           (Some (lit "/bad/path")) empty_world) = Raise e
    ∧ contains (lit "--options") (exn_msg e) = true.
Proof.
  eexists. split; [reflexivity|].
  apply (resolve_path_hint ascii_lower empty_world None (lit "ELMO_OPTIONS")
           (Some (lit "/bad/path"))).
  reflexivity.
Defined.

(** ** model.py: tokenisation, continued *)

Section SplitFacts.
Context {A : Type}.
Variable sp : A → bool.
Implicit Types s ws cur : list A.

Lemma split_by_leading ws s :
  forallb sp ws = true → split_by sp [] (ws ++ s) = split_by sp [] s.
Proof.
  induction ws as [|c ws IH]; [done|]. cbn.
  intros [-> Hws]%andb_prop. by apply IH.
Qed.

Lemma split_by_all_space cur ws :
  forallb sp ws = true →
  split_by sp cur ws = match cur with [] => [] | _ => [reverse cur] end.
Proof.
  revert cur. induction ws as [|c ws IH]; intros cur; [done|]. cbn.
  intros [-> Hws]%andb_prop.
  destruct cur; rewrite (IH [] Hws); done.
Qed.

Lemma split_by_trailing cur s ws :
  forallb sp ws = true → split_by sp cur (s ++ ws) = split_by sp cur s.
Proof.
  intros Hws. revert cur. induction s as [|c s IH]; intros cur.
  - cbn [app]. by rewrite split_by_all_space.
  - cbn. destruct (sp c); [|apply IH].
    destruct cur; by rewrite IH.
Qed.

Lemma lstrip_by_decompose s :
  ∃ ws, forallb sp ws = true ∧ s = ws ++ lstrip_by sp s.
Proof.
  induction s as [|c s (ws & Hws & Hs)]; [by exists []|].
  cbn [lstrip_by]. destruct (sp c) eqn:Hc; [|by exists []].
  exists (c :: ws). cbn. rewrite Hc, Hws. split; [done|]. by f_equal.
Qed.

Lemma forallb_reverse ws : forallb sp (reverse ws) = forallb sp ws.
Proof.
  induction ws as [|c ws IH]; [done|].
  rewrite reverse_cons, forallb_app, IH. cbn.
  rewrite andb_true_r. apply andb_comm.
Qed.

Lemma rstrip_by_decompose s :
  ∃ ws, forallb sp ws = true ∧ s = rstrip_by sp s ++ ws.
Proof.
  destruct (lstrip_by_decompose (reverse s)) as (ws & Hws & Hs).
  exists (reverse ws). split; [by rewrite forallb_reverse|].
  unfold rstrip_by. rewrite <- reverse_app, <- Hs.
  by rewrite reverse_involutive.
Qed.

(** Stripping first makes no difference to the split. *)
Lemma split_by_strip s : split_by sp [] (strip_by sp s) = split_by sp [] s.
Proof.
  destruct (lstrip_by_decompose s) as (ws1 & Hws1 & Hs1).
  destruct (rstrip_by_decompose (lstrip_by sp s)) as (ws2 & Hws2 & Hs2).
  rewrite Hs1 at 2. rewrite split_by_leading by done.
  rewrite Hs2. by rewrite split_by_trailing.
Qed.
End SplitFacts.

(** Whitespace around a text, of any kind and amount, does not change its
    tokens; in particular the tokens are those of the text split as it
    is. *)
Theorem run_once_tokens_padding (before text after : pystr) :
  forallb isspace before = true → forallb isspace after = true →
  Model.run_once_tokens (before ++ text ++ after) = Model.run_once_tokens text
  ∧ Model.run_once_tokens text = split text.
Proof.
  intros Hb Ha. unfold Model.run_once_tokens, split, strip.
  rewrite !split_by_strip. split; [|done].
  by rewrite split_by_leading, split_by_trailing.
Qed.

Lemma run_once_tokens_padding_witness :
  Model.run_once_tokens ([0x3000; 9] ++ lit "N. ( 1982 )" ++ [LF; 0xA0])
  = Model.run_once_tokens (lit "N. ( 1982 )")
  ∧ Model.run_once_tokens (lit "N. ( 1982 )") = split (lit "N. ( 1982 )").
Proof.
  apply (run_once_tokens_padding [0x3000; 9] (lit "N. ( 1982 )") [LF; 0xA0]);
    reflexivity.
Defined.

(** ** probe_diag.py, continued *)

(** [print_kv] puts the value in column 47 for every key of up to 45
    characters: the key, blanks up to column 46, the value. *)
Theorem format_kv_columns (k v : pystr) :
  (length k ≤ 45)%nat →
  take 46 (ProbeDiag.format_kv k v) = k ++ replicate (46 - length k) 0x20
  ∧ drop 46 (ProbeDiag.format_kv k v) = v.
Proof.
  intros Hk. unfold ProbeDiag.format_kv.
  change (lit " ") with ([0x20] : pystr).
  assert (k ++ replicate (45 - length k) 32 ++ [32] ++ v
          = (k ++ replicate (46 - length k) 32) ++ v) as ->.
  { replace (46 - length k)%nat with (S (45 - length k)) by lia.
    rewrite replicate_S_end. by rewrite <- !(assoc_L (++)). }
  assert (length (k ++ replicate (46 - length k) 32) = 46%nat) as Hlen.
  { rewrite length_app, length_replicate. lia. }
  split.
  - by rewrite take_app_length' by done.
  - by rewrite drop_app_length' by done.
Qed.

Lemma format_kv_columns_witness :
  take 46 (ProbeDiag.format_kv (lit "SCIWING_LITE") (lit "1"))
  = lit "SCIWING_LITE" ++ replicate 34 0x20
  ∧ drop 46 (ProbeDiag.format_kv (lit "SCIWING_LITE") (lit "1")) = lit "1".
Proof.
  apply (format_kv_columns (lit "SCIWING_LITE") (lit "1")). vm_compute.
  repeat constructor.
Defined.

(** A key longer than 45 characters is not cut: the value follows it
    after one blank. *)
Theorem format_kv_long_key (k v : pystr) :
  (45 ≤ length k)%nat → ProbeDiag.format_kv k v = k ++ [0x20] ++ v.
Proof.
  intros Hk. unfold ProbeDiag.format_kv.
  replace (45 - length k)%nat with 0%nat by lia. done.
Qed.

Lemma format_kv_long_key_witness :
  ProbeDiag.format_kv (replicate 50 0x41) (lit "v")
  = replicate 50 0x41 ++ [0x20] ++ lit "v".
Proof.
  apply (format_kv_long_key (replicate 50 0x41) (lit "v")). vm_compute.
  repeat constructor.
Defined.

(** What [safe_import] gives back: the module and no message exactly
    when the import succeeds; no module and the message of the failure
    exactly when the import fails with an instance of [Exception]; never
    both and never neither; and any other failure is raised again. *)
Theorem safe_import_outcome (py : ProbeDiag.interpreter) (name : pystr)
    (w : world) :
  match fst (ProbeDiag.safe_import py name w) with
  | Ok (Some m, None) => ProbeDiag.import_module py name = Ok m
  | Ok (None, Some msg) =>
    ∃ e, ProbeDiag.import_module py name = Raise e
         ∧ isinstance e Exception = true ∧ msg = exn_msg e
  | Ok _ => False
  | Raise e =>
    ProbeDiag.import_module py name = Raise e
    ∧ isinstance e Exception = false
  end.
Proof.
  rewrite safe_import_run.
  destruct (ProbeDiag.import_module py name) as [m|e]; [done|].
  destruct (isinstance e Exception) eqn:He; cbn; [|done].
  by exists e.
Qed.

(** A smoke test never lets an [Exception] out: either it returns, having
    printed exactly one line under its own key, or the failure it raises
    is outside [Exception] and nothing was printed. *)
Theorem spaCy_smoke_outcome (py : ProbeDiag.interpreter)
    (spacy : option ProbeDiag.module_) (w : world) :
  (∃ v, ProbeDiag.spaCy_smoke py spacy w
        = (Ok (), add_events w
                    [Printed (ProbeDiag.format_kv (lit "SPACY SMOKE") v)]))
  ∨ (∃ e, ProbeDiag.spaCy_smoke py spacy w = (Raise e, w)
          ∧ isinstance e Exception = false).
Proof.
  destruct spacy as [m|]; [|left; by eexists].
  unfold ProbeDiag.spaCy_smoke, ProbeDiag.try_except, ProbeDiag.lift,
    mbind, M_bind.
  destruct (ProbeDiag.spaCy_doc m) as [doc|e]; [left; by eexists|].
  destruct (isinstance e Exception) eqn:He; [left; by eexists|].
  right. by exists e.
Qed.

(** The same for the smoke test of tensorboardX: one line printed and a
    normal return, or a failure outside [Exception] and nothing
    printed. *)
Theorem tbx_smoke_outcome (py : ProbeDiag.interpreter)
    (tbx : option ProbeDiag.module_) (w : world) :
  (∃ v, ProbeDiag.tbx_smoke py tbx w
        = (Ok (), add_events w
                    [Printed (ProbeDiag.format_kv
                                (lit "TENSORBOARDX SMOKE") v)]))
  ∨ (∃ e, ProbeDiag.tbx_smoke py tbx w = (Raise e, w)
          ∧ isinstance e Exception = false).
Proof.
  destruct tbx as [m|]; [|left; by eexists].
  unfold ProbeDiag.tbx_smoke, ProbeDiag.try_except, ProbeDiag.lift,
    mbind, M_bind.
  destruct (ProbeDiag.import_from py _ _) as [obj|e]; [left; by eexists|].
  destruct (isinstance e Exception) eqn:He; [left; by eexists|].
  right. by exists e.
Qed.

(** *** Where the probe stops *)

Lemma add_events_nil w : add_events w [] = w.
Proof. unfold add_events. rewrite app_nil_r. by destruct w. Qed.

Lemma safe_import_cases (py : ProbeDiag.interpreter) (name : pystr)
    (w : world) :
  (∃ v, ProbeDiag.safe_import py name w = (Ok v, w)
        ∧ ordinary (ProbeDiag.import_module py name))
  ∨ (∃ e, ProbeDiag.safe_import py name w = (Raise e, w)
          ∧ ProbeDiag.import_module py name = Raise e
          ∧ isinstance e Exception = false).
Proof.
  rewrite safe_import_run.
  destruct (ProbeDiag.import_module py name) as [m|e] eqn:Hi.
  - left. eexists. split; [done|]. by intros e.
  - destruct (isinstance e Exception) eqn:He.
    + left. eexists. split; [done|]. by intros e' [= <-].
    + right. by exists e.
Qed.

(** The limit of the isolation: [main] makes all seven imports before it
    prints the first status line, so when an import of the probe list
    fails outside [Exception] (a [KeyboardInterrupt], a [SystemExit]),
    [main] raises such a failure having printed the preamble and not one
    status line. *)
Theorem probe_aborts_without_status_lines (py : ProbeDiag.interpreter)
    (w : world) (name : pystr) (e : exn) :
  name ∈ packages.*1 →
  ProbeDiag.import_module py name = Raise e →
  isinstance e Exception = false →
  ∃ e', ProbeDiag.main py w = (Raise e', add_events w (preamble py w))
        ∧ isinstance e' Exception = false.
Proof.
  intros Hin He Hne.
  unfold ProbeDiag.main, ProbeDiag.print_kv, getenv, get_world.
  unfold mbind, M_bind, mret, M_ret.
  do 14 (rewrite print_run; cbv beta iota;
         rewrite ?add_events_add, ?environ_add_events).
  do 7 (match goal with
        | |- context [ProbeDiag.safe_import py ?n ?w'] =>
          let Ho := fresh "Ho" in
          destruct (safe_import_cases py n w')
            as [([? ?] & -> & Ho)|(e' & -> & _ & He')];
          [cbv beta iota|by exists e']
        end).
  exfalso.
  assert (ordinary (ProbeDiag.import_module py name)) as Hord.
  { clear -Hin Ho Ho0 Ho1 Ho2 Ho3 Ho4 Ho5.
    unfold packages in Hin. cbn [fmap list_fmap fst] in Hin.
    repeat (apply elem_of_cons in Hin as [->|Hin]; [done|]).
    by apply elem_of_nil in Hin. }
  specialize (Hord e He). congruence.
Qed.

Lemma probe_aborts_without_status_lines_witness :
  let py := ProbeDiag.Interpreter [] [] []
              (λ _, Raise (MkExn KeyboardInterrupt [])) (λ _ _, Ok (ProbeDiag.Object_ true))
              (λ _, []) in
  ∃ e', ProbeDiag.main py empty_world
        = (Raise e', add_events empty_world (preamble py empty_world))
        ∧ isinstance e' Exception = false.
Proof.
  cbv zeta.
  apply (probe_aborts_without_status_lines _ empty_world (lit "torch")
           (MkExn KeyboardInterrupt [])); [|reflexivity|reflexivity].
  refine (bool_decide_unpack _ _). vm_compute. exact I.
Defined.

(** ** patch_sectlabel_lite.py, continued *)

Section PatchCases.
Import PatchSectlabelLite.
Variable plat : platform.
Implicit Types (w : world) (data : list byte) (t : pystr).

Local Abbreviation T := (path_str plat TARGET).
Local Abbreviation B := (path_str plat BACKUP).

(** The target is a directory: reading it fails, nothing is touched. *)
Lemma main_target_dir w :
  files w !! T = Some Dir → main plat w = (Raise (open_dir_error plat T), w).
Proof.
  intros Hp. unfold main. unfold mbind at 1, M_bind at 1.
  unfold path_exists, get_world, mbind at 1, M_bind at 1, mret, M_ret.
  rewrite Hp. cbn [negb]. unfold mbind at 1, M_bind at 1.
  unfold read_text, get_world, mbind, M_bind. by rewrite Hp.
Qed.

(** The backup path is a directory: the first write fails, nothing is
    touched. *)
Lemma main_backup_dir w data t :
  files w !! T = Some (File data) → utf8_decode ignore data = Ok t →
  contains sentinel (universal_newlines t) = true →
  files w !! B = Some Dir →
  main plat w = (Raise (open_dir_error plat B), w).
Proof.
  intros Hp Ht Hs Hb.
  destruct (read_text_ignore plat w T data Hp)
    as (t' & _ & Ht' & Hread & _ & _ & _).
  rewrite Ht in Ht'. injection Ht' as <-.
  unfold main. unfold mbind at 1, M_bind at 1.
  unfold path_exists, get_world, mbind at 1, M_bind at 1, mret, M_ret.
  rewrite Hp. cbn [negb]. unfold mbind at 1, M_bind at 1. rewrite Hread.
  rewrite Hs. cbn [negb]. unfold mbind at 1, M_bind at 1.
  unfold write_text, get_world, mbind, M_bind. by rewrite Hb.
Qed.

(** The five ways [main] can go. *)
Lemma main_cases w :
  (files w !! T = None
   ∧ main plat w = (Raise (MkExn SystemExit (msg_missing plat)), w))
  ∨ (files w !! T = Some Dir
     ∧ main plat w = (Raise (open_dir_error plat T), w))
  ∨ (∃ data t,
       files w !! T = Some (File data) ∧ utf8_decode ignore data = Ok t
       ∧ ((contains sentinel (universal_newlines t) = false
           ∧ main plat w = (Ok (), add_events w [Printed msg_skipped]))
          ∨ (contains sentinel (universal_newlines t) = true
             ∧ files w !! B = Some Dir
             ∧ main plat w = (Raise (open_dir_error plat B), w))
          ∨ (contains sentinel (universal_newlines t) = true
             ∧ files w !! B ≠ Some Dir
             ∧ ∃ bak tgt,
                 main plat w
                 = (Ok (),
                    World (<[T := File tgt]> (<[B := File bak]> (files w)))
                          (environ w)
                          (events w ++ [Wrote B bak; Wrote T tgt;
                                        Printed (msg_patched plat)]))))).
Proof.
  destruct (files w !! T) as [[data|]|] eqn:Hp.
  - right. right.
    destruct (utf8_decode_ignore_total data) as (t & _ & Ht & _).
    exists data, t. split; [done|]. split; [done|].
    destruct (contains sentinel (universal_newlines t)) eqn:Hs.
    + right.
      assert (files w !! B = Some Dir ∨ files w !! B ≠ Some Dir) as [Hb|Hb].
      { destruct (files w !! B) as [[d|]|]; auto. }
      * left. split; [done|]. split; [done|]. by eapply main_backup_dir.
      * right. split; [done|]. split; [done|].
        destruct (main_patches plat w data t Hp Ht Hs Hb)
          as (bak & tgt & _ & _ & Hmain).
        by exists bak, tgt.
    + left. split; [done|]. by eapply main_skips.
  - right. left. split; [done|]. by apply main_target_dir.
  - left. split; [done|]. by apply main_missing.
Qed.
End PatchCases.

(** When the text of the target does not hold the sentinel, [main]
    writes nothing: it prints one line and returns, and every file is as
    it was. *)
Theorem patch_skips_without_write (plat : platform) (w : world)
    (data : list byte) (t : pystr) :
  files w !! path_str plat TARGET = Some (File data) →
  utf8_decode ignore data = Ok t →
  contains sentinel (universal_newlines t) = false →
  main plat w = (Ok (), add_events w [Printed msg_skipped]).
Proof. intros Hp Ht Hs. by eapply main_skips. Qed.

Lemma patch_skips_without_write_witness :
  main Windows (target_world Windows (list_byte_of_string "import os"))
  = (Ok (), add_events (target_world Windows (list_byte_of_string "import os"))
                       [Printed msg_skipped]).
Proof.
  apply (patch_skips_without_write Windows _ (list_byte_of_string "import os")
           (lit "import os")); reflexivity.
Defined.

(** However [main] ends, it changes no file but the target and the
    backup, and no environment variable. *)
Theorem patch_touches_two_paths (plat : platform) (w : world) (p : pystr) :
  p ≠ path_str plat TARGET → p ≠ path_str plat BACKUP →
  files (snd (main plat w)) !! p = files w !! p
  ∧ environ (snd (main plat w)) = environ w.
Proof.
  intros HT HB.
  destruct (main_cases plat w)
    as [[_ ->]|[[_ ->]|(data & t & _ & _ &
         [[_ ->]|[(_ & _ & ->)|(_ & _ & bak & tgt & ->)]])]]; try done.
  cbn [snd files environ]. split; [|done].
  by rewrite !lookup_insert_ne.
Qed.

Lemma patch_touches_two_paths_witness :
  files (snd (main Posix (target_world Posix sentinel_line))) !! lit "/etc/x"
  = files (target_world Posix sentinel_line) !! lit "/etc/x"
  ∧ environ (snd (main Posix (target_world Posix sentinel_line)))
    = environ (target_world Posix sentinel_line).
Proof.
  apply (patch_touches_two_paths Posix (target_world Posix sentinel_line)
           (lit "/etc/x")); by vm_compute.
Defined.

(** On a target that is a regular file, whatever bytes it holds, with a
    backup path that is not a directory, [main] returns normally: no
    content makes the read, the encoding or the writes fail. *)
Theorem patch_never_fails_on_file (plat : platform) (w : world)
    (data : list byte) :
  files w !! path_str plat TARGET = Some (File data) →
  files w !! path_str plat BACKUP ≠ Some Dir →
  fst (main plat w) = Ok ().
Proof.
  intros Hp Hb.
  destruct (main_cases plat w)
    as [[Hp' _]|[[Hp' _]|(data' & t & _ & _ &
         [[_ ->]|[(_ & Hb' & _)|(_ & _ & bak & tgt & ->)]])]];
    congruence || done.
Qed.

Lemma patch_never_fails_on_file_witness :
  fst (main Posix (target_world Posix [xff; xc0; xed; xa0; x80; x0d]))
  = Ok ().
Proof.
  apply (patch_never_fails_on_file Posix _ [xff; xc0; xed; xa0; x80; x0d]);
    by vm_compute.
Defined.

(** When the backup cannot be written because its path is a directory,
    [main] fails before it touches the target: the world is as it was. *)
Theorem patch_backup_unwritable (plat : platform) (w : world)
    (data : list byte) (t : pystr) :
  files w !! path_str plat TARGET = Some (File data) →
  utf8_decode ignore data = Ok t →
  contains sentinel (universal_newlines t) = true →
  files w !! path_str plat BACKUP = Some Dir →
  ∃ e, main plat w = (Raise e, w) ∧ isinstance e OSError = true.
Proof.
  intros Hp Ht Hs Hb. exists (open_dir_error plat (path_str plat BACKUP)).
  split; [by eapply main_backup_dir|]. by destruct plat.
Qed.

Lemma patch_backup_unwritable_witness :
  let w := World (<[path_str Posix BACKUP := Dir]>
                    (files (target_world Posix sentinel_line))) ∅ [] in
  ∃ e, main Posix w = (Raise e, w) ∧ isinstance e OSError = true.
Proof.
  cbv zeta.
  apply (patch_backup_unwritable Posix _ sentinel_line (sentinel ++ [LF]));
    reflexivity.
Defined.

(** ** model.py: [run_once] and [main] *)

Section RunnerFacts.
Import ModelMain.
Context {F : Type}.
Variable round4 : F → F.
Variable str_tokens : list pystr → pystr.
Variable str_shape : nat * nat * nat → pystr.
Variable str_numbers : list F → pystr.
Variable unicode_lower : pystr → pystr.
Variable Elmo : pystr → pystr → result (elmo F).
Implicit Types (w : world) (model : elmo F) (t : tensor F).

Local Abbreviation run := (run_once F round4 str_tokens str_shape str_numbers).
Local Abbreviation main_ := (main F round4 str_tokens str_shape str_numbers
                              unicode_lower Elmo).

Lemma row_prefix_ok t i j n d0 d1 d2 :
  shape F t = (d0, d1, d2) → (i < d0)%nat → (j < d1)%nat →
  row_prefix F t i j n = Ok (item F t i j <$> seq 0 (n `min` d2)).
Proof.
  intros Hs Hi Hj. unfold row_prefix. rewrite Hs.
  by rewrite !bool_decide_eq_true_2 by done.
Qed.

(** A sentence of fewer than two token vectors: the tokens and the shape
    are printed, the per-token lines are left out, and there is no
    failure. *)
Theorem run_once_short model text w t d0 d1 d2 :
  model [Model.run_once_tokens text] = Ok t →
  shape F t = (d0, d1, d2) → (d1 < 2)%nat →
  run model text w
  = (Ok (), add_events w
              [Printed (lit "Tokens: "
                        ++ str_tokens (Model.run_once_tokens text));
               Printed (lit "ELMo representation shape: "
                        ++ str_shape (d0, d1, d2))]).
Proof.
  intros Hm Hs Hd. unfold run_once, ProbeDiag.lift.
  unfold mbind at 1, M_bind at 1. rewrite Hm.
  unfold mbind at 1, M_bind at 1. rewrite print_run.
  unfold mbind at 1, M_bind at 1. rewrite print_run, add_events_add.
  rewrite Hs. cbn [fst snd]. by rewrite bool_decide_eq_false_2 by lia.
Qed.

(** A sentence of two token vectors or more, in a batch that is not
    empty: four lines, the last two holding the numbers of the first
    and of the second token vector of the first sentence at the
    positions 0 to 4, or at all the positions there are when there are
    fewer than five, each rounded. *)
Theorem run_once_long model text w t d0 d1 d2 :
  model [Model.run_once_tokens text] = Ok t →
  shape F t = (d0, d1, d2) → (2 ≤ d1)%nat → (0 < d0)%nat →
  run model text w
  = (Ok (), add_events w
              [Printed (lit "Tokens: "
                        ++ str_tokens (Model.run_once_tokens text));
               Printed (lit "ELMo representation shape: "
                        ++ str_shape (d0, d1, d2));
               Printed (lit "First token (5 dims): "
                        ++ str_numbers
                             (round4 <$> (item F t 0 0
                                          <$> seq 0 (5 `min` d2))));
               Printed (lit "Second token (5 dims): "
                        ++ str_numbers
                             (round4 <$> (item F t 0 1
                                          <$> seq 0 (5 `min` d2))))]).
Proof.
  intros Hm Hs Hd1 Hd0.
  pose proof (row_prefix_ok t 0 0 5 d0 d1 d2 Hs) as Hv0.
  pose proof (row_prefix_ok t 0 1 5 d0 d1 d2 Hs) as Hv1.
  unfold run_once, ProbeDiag.lift.
  unfold mbind at 1, M_bind at 1. rewrite Hm.
  unfold mbind at 1, M_bind at 1. rewrite print_run.
  unfold mbind at 1, M_bind at 1. rewrite print_run, add_events_add.
  rewrite Hs. cbn [fst snd]. rewrite bool_decide_eq_true_2 by lia.
  unfold mbind at 1, M_bind at 1. rewrite Hv0 by lia.
  unfold mbind at 1, M_bind at 1. rewrite Hv1 by lia.
  unfold mbind at 1, M_bind at 1. rewrite print_run, add_events_add.
  by rewrite print_run, add_events_add.
Qed.

(** The forward pass comes before the first print: when the model fails
    on the sentence, [run_once] raises that failure and has printed
    nothing. *)
Theorem run_once_model_failure model text w e :
  model [Model.run_once_tokens text] = Raise e →
  run model text w = (Raise e, w).
Proof.
  intros Hm. unfold run_once, ProbeDiag.lift, mbind, M_bind. by rewrite Hm.
Qed.

(** [main] stops at the first artifact that does not resolve, the options
    file first: it raises [FileNotFoundError] naming the variable of that
    artifact, builds no model and prints nothing. *)
Theorem main_aborts_on_missing_artifact args_options args_weights text w :
  let opts := Model.candidate w args_options (lit "ELMO_OPTIONS")
                (Some Model.DEFAULT_OPTIONS) in
  let wts := Model.candidate w args_weights (lit "ELMO_WEIGHTS")
               (Some Model.DEFAULT_WEIGHTS) in
  Model.usable w opts = false ∨ Model.usable w wts = false →
  ∃ msg,
    main_ args_options args_weights text w
    = (Raise (MkExn FileNotFoundError msg), w)
    ∧ contains (if Model.usable w opts then lit "ELMO_WEIGHTS"
                else lit "ELMO_OPTIONS") msg = true.
Proof.
  intros opts wts Hbad. unfold main.
  unfold mbind at 1, M_bind at 1.
  destruct (Model.usable w opts) eqn:Ho.
  - destruct Hbad as [|Hw]; [done|].
    unfold Model.usable in Ho. apply andb_prop in Ho as [Ht Hf].
    destruct opts as [[|c p]|] eqn:Eo; try done.
    rewrite (resolve_path_ok unicode_lower w _ _ _ (c :: p)) by done.
    unfold mbind at 1, M_bind at 1.
    destruct (resolve_path_not_found unicode_lower w args_weights
                (lit "ELMO_WEIGHTS") (Some Model.DEFAULT_WEIGHTS))
      as (msg & -> & _ & _ & Hkey).
    { fold wts. unfold Model.usable in Hw.
      apply andb_false_iff in Hw. tauto. }
    by exists msg.
  - destruct (resolve_path_not_found unicode_lower w args_options
                (lit "ELMO_OPTIONS") (Some Model.DEFAULT_OPTIONS))
      as (msg & -> & _ & _ & Hkey).
    { fold opts. unfold Model.usable in Ho.
      apply andb_false_iff in Ho. tauto. }
    by exists msg.
Qed.

(** With both artifacts resolved, a constructor that fails makes [main]
    fail the same way, nothing printed; otherwise [main] is [run_once]
    on the constructed model and the text. *)
Theorem main_builds_then_runs args_options args_weights text w po pw :
  Model.selects w args_options (lit "ELMO_OPTIONS")
    (Some Model.DEFAULT_OPTIONS) po →
  is_file w po = true →
  Model.selects w args_weights (lit "ELMO_WEIGHTS")
    (Some Model.DEFAULT_WEIGHTS) pw →
  is_file w pw = true →
  main_ args_options args_weights text w
  = match Elmo po pw with
    | Ok model => run model text w
    | Raise e => (Raise e, w)
    end.
Proof.
  intros Hso Hfo Hsw Hfw. unfold main, build_elmo, ProbeDiag.lift.
  unfold mbind at 1, M_bind at 1.
  rewrite (resolve_path_ok unicode_lower w _ _ _ po);
    [|by apply selects_candidate|by destruct Hso|done].
  unfold mbind at 1, M_bind at 1.
  rewrite (resolve_path_ok unicode_lower w _ _ _ pw);
    [|by apply selects_candidate|by destruct Hsw|done].
  unfold mbind at 1, M_bind at 1. by destruct (Elmo po pw).
Qed.
End RunnerFacts.

Lemma run_once_short_witness :
  ModelMain.run_once Z (λ x, x) mjoin (λ _, []) (λ _, [])
    (zeros_model 1024) (lit "  ") empty_world
  = (Ok (), add_events empty_world
              [Printed (lit "Tokens: "
                        ++ mjoin (Model.run_once_tokens (lit "  ")));
               Printed (lit "ELMo representation shape: " ++ [])]).
Proof.
  apply (run_once_short (λ x, x) mjoin (λ _, []) (λ _, [])
           (zeros_model 1024) (lit "  ") empty_world
           (ModelMain.Tensor Z (1, 0, 1024)%nat (λ _ _ _, 0)) 1 0 1024);
    [reflexivity|reflexivity|lia].
Defined.

Lemma run_once_long_witness :
  ModelMain.run_once Z (λ x, x + 1) mjoin (λ _, []) (λ v, v)
    (λ _, Ok (ModelMain.Tensor Z (1, 3, 3)%nat
                (λ _ j k, Z.of_nat (10 * j + k))))
    (lit "a b c") empty_world
  = (Ok (), add_events empty_world
              [Printed (lit "Tokens: "
                        ++ mjoin (Model.run_once_tokens (lit "a b c")));
               Printed (lit "ELMo representation shape: " ++ []);
               Printed (lit "First token (5 dims): " ++ [1; 2; 3]);
               Printed (lit "Second token (5 dims): " ++ [11; 12; 13])]).
Proof.
  apply (run_once_long (λ x, x + 1) mjoin (λ _, []) (λ v, v)
           (λ _, Ok (ModelMain.Tensor Z (1, 3, 3)%nat
                       (λ _ j k, Z.of_nat (10 * j + k))))
           (lit "a b c") empty_world
           (ModelMain.Tensor Z (1, 3, 3)%nat
              (λ _ j k, Z.of_nat (10 * j + k))) 1 3 3);
    [reflexivity|reflexivity|lia|lia].
Defined.

Lemma run_once_model_failure_witness :
  ModelMain.run_once Z (λ x, x) mjoin (λ _, []) (λ _, [])
    (λ _, Raise (MkExn RuntimeError (lit "size mismatch")))
    (lit "a b") empty_world
  = (Raise (MkExn RuntimeError (lit "size mismatch")), empty_world).
Proof.
  apply (run_once_model_failure (λ x, x) mjoin (λ _, []) (λ _, [])
           (λ _, Raise (MkExn RuntimeError (lit "size mismatch")))
           (lit "a b") empty_world).
  reflexivity.
Defined.

(** No flag, no variable, and the built-in default paths absent: the
    options file is the one reported. *)
Lemma main_aborts_on_missing_artifact_witness :
  ∃ msg,
    ModelMain.main Z (λ x, x) mjoin (λ _, []) (λ _, []) ascii_lower
      (λ _ _, Ok (zeros_model 1024)) None None (lit "a b") empty_world
    = (Raise (MkExn FileNotFoundError msg), empty_world)
    ∧ contains (lit "ELMO_OPTIONS") msg = true.
Proof.
  apply (main_aborts_on_missing_artifact (λ x, x) mjoin (λ _, []) (λ _, [])
           ascii_lower (λ _ _, Ok (zeros_model 1024)) None None (lit "a b")
           empty_world).
  left. reflexivity.
Defined.

(** ** The codec, from text to bytes and back *)

Lemma decoded_round_trips bs t :
  utf8_decode strict bs = Ok t → Forall round_trips t.
Proof.
  remember (length bs) as n eqn:Hn. revert bs t Hn.
  induction n as [n IH] using lt_wf_ind. intros bs t -> Hs.
  destruct (decide (bs = [])) as [->|Hne].
  { cbn in Hs. injection Hs as <-. done. }
  destruct (utf8_decode_step bs Hne) as [c used rest -> Hu Henc Hdec
                                        |used rest Hbs Hu Hdec].
  - rewrite Hdec in Hs.
    destruct (utf8_decode strict rest) as [t'|] eqn:Hrest; [|done].
    cbn in Hs. injection Hs as <-. constructor; [by exists used|].
    eapply (IH (length rest)); [|done|done].
    rewrite length_app. destruct used; [done|cbn; lia].
  - by rewrite Hdec in Hs.
Qed.

Lemma utf8_decode_ignore_round_trips bs t :
  utf8_decode ignore bs = Ok t → Forall round_trips t.
Proof.
  intros Ht. destruct (utf8_decode_ignore_total bs)
    as (t' & kept & Ht' & _ & Hstrict & _).
  rewrite Ht in Ht'. injection Ht' as <-.
  by eapply decoded_round_trips.
Qed.

(** Encoding, then decoding with any handler, gives the text back. *)
Lemma utf8_encode_decode s bs errors :
  Forall round_trips s → utf8_encode s = Ok bs →
  utf8_decode errors bs = Ok s.
Proof.
  intros Hs. revert bs.
  induction Hs as [|c s (used & Hc & Hdec) _ IH]; intros bs Hbs.
  { cbn in Hbs. by injection Hbs as <-. }
  cbn in Hbs. rewrite Hc in Hbs.
  destruct (utf8_encode s) as [bs'|] eqn:Hs'; [|done].
  cbn in Hbs. injection Hbs as <-.
  by rewrite Hdec, (IH bs').
Qed.

Lemma round_trips_encodable s : Forall round_trips s → Forall encodable s.
Proof.
  intros Hs. eapply Forall_impl; [exact Hs|].
  intros c (used & Hc & _). by exists used.
Qed.

Lemma round_trips_LF : round_trips LF.
Proof.
  by eapply Forall_inv, (decoded_round_trips [x0a]).
Qed.

Lemma round_trips_CR : round_trips CR.
Proof.
  by eapply Forall_inv, (decoded_round_trips [x0d]).
Qed.

Lemma universal_newlines_round_trips s :
  Forall round_trips s → Forall round_trips (universal_newlines s).
Proof.
  remember (length s) as n eqn:Hn. revert s Hn.
  induction n as [n IH] using lt_wf_ind. intros s -> Hs.
  destruct s as [|c t]; [done|]. cbn [universal_newlines].
  apply Forall_cons in Hs as [Hc Ht].
  destruct (c =? CR).
  - constructor; [apply round_trips_LF|].
    destruct t as [|c' t']; [done|].
    apply Forall_cons in Ht as [Hc' Ht'].
    destruct (c' =? LF).
    + eapply IH; [|done|done]. cbn; lia.
    + eapply IH; [|done|by constructor]. cbn; lia.
  - constructor; [done|]. eapply IH; [|done|done]. cbn; lia.
Qed.

Lemma universal_newlines_no_CR s : CR ∉ universal_newlines s.
Proof.
  remember (length s) as n eqn:Hn. revert s Hn.
  induction n as [n IH] using lt_wf_ind. intros s ->.
  destruct s as [|c t]; [apply not_elem_of_nil|]. cbn [universal_newlines].
  destruct (c =? CR) eqn:Ec.
  - apply not_elem_of_cons. split; [done|].
    destruct t as [|c' t']; [apply not_elem_of_nil|].
    destruct (c' =? LF); (eapply IH; [|done]); cbn; lia.
  - apply not_elem_of_cons. split; [lia|].
    eapply IH; [|done]. cbn; lia.
Qed.

Lemma write_newlines_round_trips plat s :
  Forall round_trips s →
  Forall round_trips (write_newlines (os_linesep plat) s).
Proof.
  induction 1 as [|c s Hc _ IH]; [done|].
  unfold write_newlines. cbn [flat_map]. apply Forall_app. split; [|done].
  destruct (c =? LF); [|by constructor].
  destruct plat; repeat constructor;
    first [apply round_trips_LF|apply round_trips_CR].
Qed.

(** Text without carriage returns survives being written and read back
    in text mode, on either platform. *)
Lemma newlines_write_read plat s :
  CR ∉ s → universal_newlines (write_newlines (os_linesep plat) s) = s.
Proof.
  destruct plat.
  { intros Hs. rewrite write_newlines_posix. by apply universal_newlines_id. }
  induction s as [|c s IH]; [done|].
  intros [Hc Hs]%not_elem_of_cons. unfold write_newlines in *.
  cbn [flat_map]. destruct (c =? LF) eqn:El.
  - cbn. f_equal; [unfold LF in *; lia|]. by apply IH.
  - cbn [app universal_newlines]. destruct (c =? CR) eqn:Ec; [lia|].
    f_equal. by apply IH.
Qed.

(** ** patch_sectlabel_lite.py: running [main] again *)

Lemma replacement_round_trips :
  Forall round_trips PatchSectlabelLite.replacement.
Proof.
  destruct (utf8_encode PatchSectlabelLite.replacement) as [bs|] eqn:E;
    [|by vm_compute in E].
  apply (decoded_round_trips bs).
  vm_compute in E. injection E as <-. by vm_compute.
Qed.

Lemma not_elem_of_Forall (x : Z) (l : pystr) :
  x ∉ l ↔ Forall (λ c, c ≠ x) l.
Proof.
  rewrite Forall_forall. split.
  - intros Hx c Hc ->. done.
  - intros Hl Hx. by apply (Hl x).
Qed.

Lemma replacement_no_CR : CR ∉ PatchSectlabelLite.replacement.
Proof. refine (bool_decide_unpack _ _). vm_compute. exact I. Qed.

(** After a patching run no run is a no-op.  What the run wrote to the
    target is read back as the patched text, which holds the sentinel in
    the last line of the block: a further run patches again, and writes
    over the backup with the content the first run gave the target, so
    that the pre-patch content is in neither file any more. *)
Theorem patch_run_repeats (plat : platform) (w : world) (data : list byte)
    (t : pystr) :
  files w !! path_str plat TARGET = Some (File data) →
  utf8_decode ignore data = Ok t →
  contains sentinel (universal_newlines t) = true →
  files w !! path_str plat BACKUP ≠ Some Dir →
  ∃ w1 tgt tgt2 w2,
    main plat w = (Ok (), w1)
    ∧ files w1 !! path_str plat TARGET = Some (File tgt)
    ∧ main plat w1 = (Ok (), w2)
    ∧ events w2 = events w1 ++ [Wrote (path_str plat BACKUP) tgt;
                                Wrote (path_str plat TARGET) tgt2;
                                Printed (msg_patched plat)]
    ∧ files w2 !! path_str plat BACKUP = Some (File tgt).
Proof.
  intros Hp Ht Hs Hb.
  destruct (main_patches plat w data t Hp Ht Hs Hb)
    as (bak & tgt & Hbak & Htgt & Hmain).
  set (src := universal_newlines t) in *.
  set (patched := replace1 sentinel replacement src) in *.
  set (w1 := World (<[path_str plat TARGET := File tgt]>
                      (<[path_str plat BACKUP := File bak]> (files w)))
                   (environ w)
                   (events w ++ [Wrote (path_str plat BACKUP) bak;
                                 Wrote (path_str plat TARGET) tgt;
                                 Printed (msg_patched plat)])) in *.
  assert (Forall round_trips patched) as Hrt.
  { apply replace1_Forall; [apply replacement_round_trips|].
    apply universal_newlines_round_trips.
    by eapply utf8_decode_ignore_round_trips. }
  assert (CR ∉ patched) as Hcr.
  { apply not_elem_of_Forall, replace1_Forall.
    - apply not_elem_of_Forall, replacement_no_CR.
    - apply not_elem_of_Forall, universal_newlines_no_CR. }
  assert (utf8_decode ignore tgt
          = Ok (write_newlines (os_linesep plat) patched)) as Hread.
  { apply utf8_encode_decode; [|done].
    by apply write_newlines_round_trips. }
  assert (contains sentinel
            (universal_newlines (write_newlines (os_linesep plat) patched))
          = true) as Hs1.
  { rewrite newlines_write_read by done.
    destruct (replace1_spec sentinel replacement src Hs)
      as (pre & post & _ & Hrep & _).
    unfold patched. rewrite Hrep. apply patched_contains_sentinel. }
  destruct (main_patches plat w1 tgt _ (lookup_insert_eq _ _ _) Hread Hs1)
    as (bak2 & tgt2 & Hbak2 & _ & Hmain2).
  { subst w1. cbn [files].
    rewrite lookup_insert_ne by apply target_not_backup.
    by rewrite lookup_insert_eq. }
  rewrite newlines_write_read in Hbak2 by done.
  assert (bak2 = tgt) as -> by congruence.
  eexists w1, tgt, tgt2, _. split_and!; [exact Hmain| |exact Hmain2|done|].
  - apply lookup_insert_eq.
  - cbn [files]. rewrite lookup_insert_ne by apply target_not_backup.
    apply lookup_insert_eq.
Qed.

Lemma patch_run_repeats_witness :
  ∃ w1 tgt tgt2 w2,
    main Windows (target_world Windows sentinel_line) = (Ok (), w1)
    ∧ files w1 !! path_str Windows TARGET = Some (File tgt)
    ∧ main Windows w1 = (Ok (), w2)
    ∧ events w2 = events w1 ++ [Wrote (path_str Windows BACKUP) tgt;
                                Wrote (path_str Windows TARGET) tgt2;
                                Printed (msg_patched Windows)]
    ∧ files w2 !! path_str Windows BACKUP = Some (File tgt).
Proof.
  apply (patch_run_repeats Windows (target_world Windows sentinel_line)
           sentinel_line (sentinel ++ [LF]));
    [reflexivity|reflexivity|reflexivity|by vm_compute].
Defined.

(** ** smoke.py *)

Section SmokeFacts.
Import Smoke.
Variable py : ProbeDiag.interpreter.
Implicit Types (w : world) (ms : list pystr).

Lemma try_import_run m w :
  try_import py m w
  = match ProbeDiag.import_module py m with
    | Raise e =>
      if isinstance e Exception
      then (Ok (), add_events w [smoke_line py m])
      else (Raise e, w)
    | Ok _ => (Ok (), add_events w [smoke_line py m])
    end.
Proof.
  unfold try_import, smoke_line, ProbeDiag.try_except, ProbeDiag.lift,
    mbind, M_bind.
  destruct (ProbeDiag.import_module py m) as [x|e]; [done|].
  by destruct (isinstance e Exception).
Qed.

Lemma for_each_lines ms w :
  (∀ m, m ∈ ms → ordinary (ProbeDiag.import_module py m)) →
  for_each (try_import py) ms w
  = (Ok (), add_events w (smoke_line py <$> ms)).
Proof.
  revert w. induction ms as [|m ms IH]; intros w Hord.
  { cbn. by rewrite add_events_nil. }
  cbn [for_each]. unfold mbind, M_bind. rewrite try_import_run.
  assert (try_ok : match ProbeDiag.import_module py m with
                   | Raise e =>
                     if isinstance e Exception
                     then (Ok (), add_events w [smoke_line py m])
                     else (Raise e, w)
                   | Ok _ => (Ok (), add_events w [smoke_line py m])
                   end = (Ok (), add_events w [smoke_line py m])).
  { specialize (Hord m (list_elem_of_here _ _)).
    destruct (ProbeDiag.import_module py m) as [x|e]; [done|].
    by rewrite (Hord e eq_refl). }
  rewrite try_ok, IH, add_events_add; [done|].
  intros m' Hm'. apply Hord. by apply list_elem_of_further.
Qed.

(** [smoke.py] prints its first line and then one line for each of the
    six modules, in the order of the list, whichever imports fail, as
    long as they fail with instances of [Exception]. *)
Theorem smoke_line_per_module w :
  (∀ m, m ∈ mods → ordinary (ProbeDiag.import_module py m)) →
  ∃ first,
    script py w
    = (Ok (), add_events w (Printed first :: (smoke_line py <$> mods)))
    ∧ length (smoke_line py <$> mods) = 6%nat.
Proof.
  intros Hord. eexists. split; [|done].
  unfold script, mbind, M_bind. rewrite print_run.
  by rewrite for_each_lines, add_events_add.
Qed.

(** A failure outside [Exception] stops the script where it happens:
    the lines of the modules before it are printed, none after. *)
Theorem smoke_stops_at w before m after e :
  mods = before ++ m :: after →
  (∀ m', m' ∈ before → ordinary (ProbeDiag.import_module py m')) →
  ProbeDiag.import_module py m = Raise e →
  isinstance e Exception = false →
  ∃ first,
    script py w
    = (Raise e, add_events w (Printed first :: (smoke_line py <$> before))).
Proof.
  intros Hmods Hord He Hne.
  assert (∀ w0, for_each (try_import py) (before ++ m :: after) w0
                = (Raise e, add_events w0 (smoke_line py <$> before)))
    as Hloop.
  { clear Hmods. induction before as [|b before IH]; intros w0.
    - cbn [app for_each fmap list_fmap]. unfold mbind, M_bind.
      rewrite try_import_run, He, Hne. by rewrite add_events_nil.
    - cbn [app for_each]. unfold mbind, M_bind. rewrite try_import_run.
      pose proof (Hord b (list_elem_of_here _ _)) as Hb.
      assert (∀ m', m' ∈ before → ordinary (ProbeDiag.import_module py m'))
        as Hrest
        by (intros m' Hm'; apply Hord; by apply list_elem_of_further).
      destruct (ProbeDiag.import_module py b) as [x|e'] eqn:Eb.
      + rewrite (IH Hrest), add_events_add. by rewrite fmap_cons.
      + rewrite (Hb e' eq_refl).
        rewrite (IH Hrest), add_events_add. by rewrite fmap_cons. }
  eexists. unfold script, mbind, M_bind. rewrite print_run, Hmods.
  by rewrite Hloop, add_events_add.
Qed.
End SmokeFacts.

Lemma smoke_line_per_module_witness :
  ∃ first,
    Smoke.script torch_only empty_world
    = (Ok (), add_events empty_world
                (Printed first :: (smoke_line torch_only <$> Smoke.mods)))
    ∧ length (smoke_line torch_only <$> Smoke.mods) = 6%nat.
Proof.
  apply (smoke_line_per_module torch_only empty_world).
  intros m _. apply torch_only_ordinary.
Defined.

Lemma interrupted_at_ordinary name n :
  n ≠ name → ordinary (ProbeDiag.import_module (interrupted_at name) n).
Proof.
  intros Hn e. unfold interrupted_at. cbn [ProbeDiag.import_module].
  rewrite bool_decide_eq_false_2 by done. by intros [= <-].
Qed.

(** The import of [gensim], third in the list, is interrupted: two module
    lines are out, then the script ends. *)
Lemma smoke_stops_at_witness :
  ∃ first,
    Smoke.script (interrupted_at (lit "gensim")) empty_world
    = (Raise (MkExn KeyboardInterrupt []),
       add_events empty_world
         (Printed first
          :: (smoke_line (interrupted_at (lit "gensim"))
              <$> [lit "lmdb"; lit "spacy"]))).
Proof.
  apply (smoke_stops_at (interrupted_at (lit "gensim")) empty_world
           [lit "lmdb"; lit "spacy"] (lit "gensim")
           [lit "torch"; lit "tensorboardX"; lit "sciwing"]
           (MkExn KeyboardInterrupt [])).
  - reflexivity.
  - intros m' Hm'. apply interrupted_at_ordinary.
    intros ->. revert Hm'. refine (bool_decide_unpack _ _).
    vm_compute. exact I.
  - reflexivity.
  - reflexivity.
Defined.

(** ** verify_env.py *)

Section VerifyFacts.
Import VerifyEnv.
Variable py : ProbeDiag.interpreter.
Variable mod_file : ProbeDiag.module_ → option pystr.
Variable str_pipe_names : ProbeDiag.pipeline → pystr.
Implicit Types (w : world).

Local Abbreviation check := (check_import py mod_file str_pipe_names).

(** The check of spaCy against what loading and running the model
    give: an [Exception] is reported in one line, any other failure is
    raised with nothing printed. *)
Lemma spacy_check_run m w :
  match ProbeDiag.spaCy_doc m with
  | Ok _ => ∃ es, spacy_check py str_pipe_names m w = (Ok (), add_events w es)
  | Raise e =>
    spacy_check py str_pipe_names m w
    = if isinstance e Exception
      then (Ok (), add_events w [Printed (lit "spacy model load: "
                                          ++ fail_status e)])
      else (Raise e, w)
  end.
Proof.
  unfold ProbeDiag.spaCy_doc, spacy_check, ProbeDiag.try_except,
    ProbeDiag.lift, mbind, M_bind, mret, M_ret, raise.
  destruct (ProbeDiag.mod_load m) as [load|]; [|by rewrite print_run].
  destruct (load (lit "en_core_web_sm")) as [nlp|e].
  - destruct (nlp (lit "This is a test sentence.")) as [doc|e].
    + repeat (rewrite print_run; cbv beta iota).
      rewrite ?add_events_add. by eexists.
    + destruct (isinstance e Exception) eqn:He; [by rewrite print_run|done].
  - destruct (isinstance e Exception) eqn:He; [by rewrite print_run|done].
Qed.

Lemma verify_safe_import_run name w :
  safe_import py name w
  = match ProbeDiag.import_module py name with
    | Ok m =>
      (Ok (Some m, lit "OK (" ++ default (lit "no __version__")
                                   (ProbeDiag.mod_version m) ++ lit ")"), w)
    | Raise e =>
      if isinstance e Exception then (Ok (None, fail_status e), w)
      else (Raise e, w)
    end.
Proof.
  unfold safe_import, ProbeDiag.try_except, ProbeDiag.lift, mbind, M_bind,
    mret, M_ret.
  by destruct (ProbeDiag.import_module py name).
Qed.

(** One turn of the loop, for a name whose import fails in the ordinary
    way if at all, the check of spaCy not being stopped: the status line
    first, then what the checks add. *)
Lemma check_import_ok name w :
  ordinary (ProbeDiag.import_module py name) →
  name ≠ lit "spacy" ∨ spacy_interrupt py = None →
  ∃ es, check name w = (Ok (), add_events w (verify_line py name :: es)).
Proof.
  intros Hord Hsp. unfold check_import, verify_line, mbind, M_bind.
  rewrite verify_safe_import_run.
  destruct (ProbeDiag.import_module py name) as [m|e] eqn:Hi.
  - cbv beta iota. rewrite print_run. cbv beta iota.
    destruct (decide (name = lit "spacy")) as [Hname|Hname].
    + rewrite (bool_decide_eq_true_2 _ Hname).
      destruct Hsp as [Hsp|Hsp]; [done|].
      unfold spacy_interrupt in Hsp. rewrite <-Hname, Hi in Hsp.
      match goal with
      | |- context [spacy_check _ _ m ?w'] =>
        pose proof (spacy_check_run m w') as Hrun
      end.
      destruct (ProbeDiag.spaCy_doc m) as [doc|e].
      * destruct Hrun as [es ->]. cbv beta iota. rewrite add_events_add.
        destruct (bool_decide (name = lit "lmdb")).
        -- rewrite print_run, add_events_add. cbn [app]. by eexists.
        -- unfold mret, M_ret. cbn [app]. by eexists.
      * rewrite Hrun. destruct (isinstance e Exception); [|done].
        cbv beta iota. rewrite add_events_add.
        destruct (bool_decide (name = lit "lmdb")).
        -- rewrite print_run, add_events_add. cbn [app]. by eexists.
        -- unfold mret, M_ret. cbn [app]. by eexists.
    + rewrite (bool_decide_eq_false_2 _ Hname).
      unfold mret, M_ret. cbv beta iota.
      destruct (bool_decide (name = lit "lmdb")).
      * rewrite print_run, add_events_add. cbn [app]. by eexists.
      * by eexists.
  - rewrite (Hord e eq_refl). cbv beta iota. rewrite print_run.
    cbv beta iota. unfold mret, M_ret.
    destruct (bool_decide (name = lit "spacy"));
      destruct (bool_decide (name = lit "lmdb")); cbv beta iota;
      by eexists.
Qed.

(** The turn of [spacy] when its check is stopped: the status line is
    out, and the failure is raised. *)
Lemma check_import_interrupted w e :
  spacy_interrupt py = Some e →
  check (lit "spacy") w
  = (Raise e, add_events w [verify_line py (lit "spacy")]).
Proof.
  unfold spacy_interrupt. intros Hsp.
  unfold check_import, verify_line, mbind, M_bind.
  rewrite verify_safe_import_run.
  destruct (ProbeDiag.import_module py (lit "spacy")) as [m|]; [|done].
  cbv beta iota. rewrite print_run. cbv beta iota.
  rewrite bool_decide_eq_true_2 by done.
  match goal with
  | |- context [spacy_check _ _ m ?w'] =>
    pose proof (spacy_check_run m w') as Hrun
  end.
  destruct (ProbeDiag.spaCy_doc m) as [doc|e']; [done|].
  rewrite Hrun. destruct (isinstance e' Exception); [done|].
  by injection Hsp as ->.
Qed.

Lemma for_each_check_ok ms w :
  (∀ m, m ∈ ms → ordinary (ProbeDiag.import_module py m)) →
  lit "spacy" ∉ ms ∨ spacy_interrupt py = None →
  ∃ es, Smoke.for_each check ms w = (Ok (), add_events w es)
        ∧ (verify_line py <$> ms) `sublist_of` es.
Proof.
  revert w. induction ms as [|m ms IH]; intros w Hord Hsp.
  { exists []. by rewrite add_events_nil. }
  cbn [Smoke.for_each]. unfold mbind, M_bind.
  destruct (check_import_ok m w) as [es ->].
  { apply Hord, list_elem_of_here. }
  { destruct Hsp as [Hsp|Hsp]; [left|by right].
    intros ->. apply Hsp, list_elem_of_here. }
  destruct (IH (add_events w (verify_line py m :: es)))
    as (es' & -> & Hsub).
  { intros m' Hm'. by apply Hord, list_elem_of_further. }
  { destruct Hsp as [Hsp|Hsp]; [left|by right].
    intros Hin. by apply Hsp, list_elem_of_further. }
  rewrite add_events_add. eexists. split; [done|].
  rewrite fmap_cons. cbn [app]. apply sublist_skip.
  by apply sublist_inserts_l.
Qed.
End VerifyFacts.

Lemma for_each_env_lines (ks : list pystr) (w : world) :
  Smoke.for_each
    (λ k, v ← getenv k; print (Smoke.ljust 40 k ++ lit " " ++ str_of v))
    ks w
  = (Ok (),
     add_events w
       ((λ k, Printed (Smoke.ljust 40 k ++ lit " "
                       ++ str_of (environ w !! k))) <$> ks)).
Proof.
  assert (∀ w0, environ w0 = environ w →
    Smoke.for_each
      (λ k, v ← getenv k; print (Smoke.ljust 40 k ++ lit " " ++ str_of v))
      ks w0
    = (Ok (),
       add_events w0
         ((λ k, Printed (Smoke.ljust 40 k ++ lit " "
                         ++ str_of (environ w !! k))) <$> ks))) as H.
  { induction ks as [|k ks IH]; intros w0 Hw0.
    { cbn. by rewrite add_events_nil. }
    cbn [Smoke.for_each]. unfold mbind at 1, M_bind at 1.
    unfold getenv, get_world, mbind at 1, M_bind at 1, mret, M_ret.
    unfold mbind at 1, M_bind at 1. rewrite print_run, Hw0.
    rewrite IH by done. by rewrite add_events_add. }
  by apply H.
Qed.

(** [verify_env.py], when [sys.version] holds a token and every import
    of its list fails with an instance of [Exception] if it fails.  When
    the check of spaCy is not stopped by a failure outside [Exception],
    [main] returns, and the six status lines are among the lines it
    printed, in the order of the list, whichever imports failed.  When
    it is, [main] raises that failure, and the status line of [spacy]
    is the last line printed, that of [lmdb] coming before it. *)
Theorem verify_env_isolation (py : ProbeDiag.interpreter)
    (mod_file : ProbeDiag.module_ → option pystr)
    (str_pipe_names : ProbeDiag.pipeline → pystr) (w : world)
    (version : pystr) (rest : list pystr) :
  split (ProbeDiag.sys_version py) = version :: rest →
  (∀ n, n ∈ VerifyEnv.names → ordinary (ProbeDiag.import_module py n)) →
  match spacy_interrupt py with
  | None =>
    ∃ es,
      VerifyEnv.main py mod_file str_pipe_names w = (Ok (), add_events w es)
      ∧ (verify_line py <$> VerifyEnv.names) `sublist_of` es
  | Some e =>
    ∃ es,
      VerifyEnv.main py mod_file str_pipe_names w
      = (Raise e, add_events w (es ++ [verify_line py (lit "spacy")]))
      ∧ verify_line py (lit "lmdb") ∈ es
      ∧ isinstance e Exception = false
  end.
Proof.
  intros Hv Hord. unfold VerifyEnv.main, ProbeDiag.lift, mbind, M_bind.
  rewrite Hv. cbn [VerifyEnv.first_item].
  repeat (rewrite print_run; cbv beta iota; rewrite ?add_events_add).
  rewrite for_each_env_lines. cbv beta iota. rewrite ?add_events_add.
  repeat (rewrite print_run; cbv beta iota; rewrite ?add_events_add).
  destruct (spacy_interrupt py) as [e|] eqn:Hsp.
  - unfold VerifyEnv.names. cbn [Smoke.for_each]. unfold mbind, M_bind.
    match goal with
    | |- context [VerifyEnv.check_import _ _ _ (lit "lmdb") ?w'] =>
      destruct (check_import_ok py mod_file str_pipe_names (lit "lmdb") w')
        as [es ->]
    end.
    { apply Hord. refine (bool_decide_unpack _ _). vm_compute. exact I. }
    { left. refine (bool_decide_unpack _ _). vm_compute. exact I. }
    rewrite (check_import_interrupted py mod_file str_pipe_names _ e Hsp).
    rewrite !add_events_add.
    eexists. split_and!.
    + f_equal. f_equal. rewrite !(assoc_L (++)). reflexivity.
    + apply elem_of_app. right. apply list_elem_of_here.
    + unfold spacy_interrupt in Hsp.
      destruct (ProbeDiag.import_module py (lit "spacy")) as [m|]; [|done].
      destruct (ProbeDiag.spaCy_doc m) as [|e']; [done|].
      destruct (isinstance e' Exception) eqn:He; [done|].
      by injection Hsp as <-.
  - match goal with
    | |- context [Smoke.for_each (VerifyEnv.check_import _ _ _) _ ?w'] =>
      destruct (for_each_check_ok py mod_file str_pipe_names
                  VerifyEnv.names w' Hord) as (es & -> & Hsub)
    end; [by right|].
    cbv beta iota; rewrite ?add_events_add.
    repeat (rewrite print_run; cbv beta iota; rewrite ?add_events_add).
    eexists. split; [reflexivity|].
    do 4 apply sublist_inserts_r. apply sublist_inserts_l. exact Hsub.
Qed.

Lemma spacy_load_interrupted_ordinary name :
  ordinary (ProbeDiag.import_module spacy_load_interrupted name).
Proof.
  intros e. unfold spacy_load_interrupted. cbn [ProbeDiag.import_module].
  destruct (bool_decide (name = lit "spacy")); [done|].
  by intros [= <-].
Qed.

(** With [torch] alone installed the run completes; with spaCy installed
    and the loading of its model interrupted, the run stops after the
    status line of [spacy]. *)
Lemma verify_env_isolation_witness :
  (∃ es,
     VerifyEnv.main torch_only (λ _, None) (λ _, []) empty_world
     = (Ok (), add_events empty_world es)
     ∧ (verify_line torch_only <$> VerifyEnv.names) `sublist_of` es)
  ∧ (∃ es,
       VerifyEnv.main spacy_load_interrupted (λ _, None) (λ _, [])
         empty_world
       = (Raise (MkExn KeyboardInterrupt []),
          add_events empty_world
            (es ++ [verify_line spacy_load_interrupted (lit "spacy")]))
       ∧ verify_line spacy_load_interrupted (lit "lmdb") ∈ es
       ∧ isinstance (MkExn KeyboardInterrupt []) Exception = false).
Proof.
  split.
  - exact (verify_env_isolation torch_only (λ _, None) (λ _, []) empty_world
             (lit "3.7.0") [] eq_refl (λ n _, torch_only_ordinary n)).
  - exact (verify_env_isolation spacy_load_interrupted (λ _, None) (λ _, [])
             empty_world (lit "3.7.0") [] eq_refl
             (λ n _, spacy_load_interrupted_ordinary n)).
Defined.
